(** * bright_events_node: the events resource and the configuration loader

  A shallow embedding of [src/domains/events] (the query filter composer
  and the events resource) and of [src/config/index.ts], with the
  properties of the specification stated over it.

  The query builder (knex) and the schema validator (joi) are libraries:
  they are modelled here at the level the sources use them.  A query is a
  deferred description (table, method, where clauses, offset, limit) that
  only touches the store when it is awaited. *)

From Stdlib Require Import Ascii String List Bool Arith Lia Permutation QArith.
Import ListNotations.
Close Scope Q_scope.
Open Scope string_scope.
Open Scope list_scope.

(* ================================================================== *)
(** ** JavaScript objects with string properties *)

Module Js.

(** A plain object whose properties hold strings, in insertion order.
    [process.env] and a request-derived filter body are such objects. *)
Definition object := list (string * string).

(** [o.k]: the property, or [None] for [undefined]. *)
Fixpoint get (k : string) (o : object) : option string :=
  match o with
  | [] => None
  | (k', v) :: o' => if String.eqb k k' then Some v else get k o'
  end.

(** [if (v)]: a string is truthy unless it is empty; [undefined] is falsy. *)
Definition truthy (v : option string) : bool :=
  match v with
  | Some s => negb (String.eqb s "")
  | None => false
  end.

(** [`${v}`]: how a template literal renders a value. *)
Definition str (v : option string) : string :=
  match v with
  | Some s => s
  | None => "undefined"
  end.

Definition keys (o : object) : list string := map fst o.

(** With distinct keys, a property holds a value exactly when the pair is
    listed. *)
Lemma get_In (k v : string) (o : object) :
  NoDup (keys o) -> (get k o = Some v <-> In (k, v) o).
Proof.
  induction o as [| [k' v'] o IH]; simpl; intros Hnd.
  - split; [discriminate | contradiction].
  - inversion Hnd as [| ? ? Hnotin Hnd']; subst.
    destruct (String.eqb_spec k k') as [-> | Hne].
    + split.
      * intros [= ->]. now left.
      * intros [[= ->] | Hin]; [reflexivity |].
        exfalso. apply Hnotin. unfold keys.
        change k' with (fst (k', v)). now apply in_map.
    + rewrite (IH Hnd'). split.
      * intros Hin. now right.
      * intros [[= -> ->] | Hin]; [congruence | assumption].
Qed.

(** Reading a property does not depend on the order in which the
    properties were set. *)
Lemma get_Permutation (k : string) (o o' : object) :
  NoDup (keys o) -> Permutation o o' -> get k o = get k o'.
Proof.
  intros Hnd Hp.
  assert (Hnd' : NoDup (keys o')).
  { unfold keys. eapply Permutation_NoDup; [| exact Hnd].
    now apply Permutation_map. }
  destruct (get k o) as [v |] eqn:E.
  - apply (get_In _ _ _ Hnd) in E. symmetry. apply (get_In _ _ _ Hnd').
    eapply Permutation_in; eassumption.
  - destruct (get k o') as [v' |] eqn:E'; [| reflexivity].
    apply (get_In _ _ _ Hnd') in E'.
    apply Permutation_sym in Hp.
    pose proof (Permutation_in _ Hp E') as Hin.
    apply (get_In _ _ _ Hnd) in Hin. congruence.
Qed.

End Js.

(* ================================================================== *)
(** ** The events resource *)

Module Events.

(** *** events.types.ts *)

Record EventBody := mkEventBody {
  tittle : string;
  slug : string;
  description : string;
  location : string;
  date : string;
  time : string;
  rsvpEndDate : string;
  createdBy : string
}.

(** [RawEventBody extends EventBody] with the identifier. *)
Record RawEventBody := mkRaw {
  id : string;
  event : EventBody
}.

Inductive EventLookUpKey := ID | SLUG.

Definition lookup_key_value (k : EventLookUpKey) : string :=
  match k with
  | ID => "id"
  | SLUG => "slug"
  end.

(** Every field optional: [None] is an absent property. *)
Record UpdateEventBody := mkUpdate {
  upd_tittle : option string;
  upd_slug : option string;
  upd_description : option string;
  upd_location : option string;
  upd_date : option string;
  upd_time : option string;
  upd_rsvpEndDate : option string;
  upd_createdBy : option string
}.

(** The object an [enum] compiles to: member name to value.  The composer
    reads members by name, so the table is kept as the source has it. *)
Definition EventsFilterFields : Js.object :=
  [ ("TITTLE", "tittle");
    ("DESCRIPTION", "description");
    ("LOCATION", "location") ].

(** *** events.errors (imported, not part of the sources): the error the
    resource throws, with its message and optional status code; and the
    error a query gives when the query builder or the database refuses
    it. *)
Inductive Error :=
| EventNotFountError (message : string) (status : option nat)
| StorageError.

Inductive Result (A : Type) :=
| Ok (a : A)
| Err (e : Error).
Arguments Ok {A} a.
Arguments Err {A} e.

(** *** The query builder *)

(** A where clause as the builder records it.  The column and the value of
    [where(column, value)] are JavaScript values and may be [undefined]. *)
Inductive Where :=
| WhereBasic (column : option string) (value : option string)
| WhereRaw (sql : string) (bindings : list string).

Inductive Method :=
| MSelect
| MFirst
| MInsert (body : EventBody)
| MUpdate (body : UpdateEventBody)
| MDelete.

Record QueryBuilder := mkQuery {
  q_table : string;
  q_method : Method;
  q_where : list Where;
  q_offset : option nat;
  q_limit : option nat;
  q_returning : bool
}.

Definition QueryBuilderFunction := QueryBuilder -> QueryBuilder.

Definition EVENTS_TABLE := "events".

(** [knexInstance(table)]: a fresh query on the table; awaited as it is,
    it selects every row. *)
Definition knexInstance (table : string) : QueryBuilder :=
  mkQuery table MSelect [] None None false.

Definition with_method (m : Method) (q : QueryBuilder) : QueryBuilder :=
  mkQuery (q_table q) m (q_where q) (q_offset q) (q_limit q) (q_returning q).

Definition add_where (w : Where) (q : QueryBuilder) : QueryBuilder :=
  mkQuery (q_table q) (q_method q) (q_where q ++ [w])
          (q_offset q) (q_limit q) (q_returning q).

Definition where_ (column value : option string) : QueryBuilderFunction :=
  add_where (WhereBasic column value).

(** [whereRaw(sql)]: the text goes into the query as it is; no bindings
    are given at the only call site. *)
Definition whereRaw (sql : string) : QueryBuilderFunction :=
  add_where (WhereRaw sql []).

Definition first : QueryBuilderFunction := with_method MFirst.
Definition select_all : QueryBuilderFunction := with_method MSelect.
Definition delete_ : QueryBuilderFunction := with_method MDelete.

Definition insert (body : EventBody) (q : QueryBuilder) : QueryBuilder :=
  mkQuery (q_table q) (MInsert body) (q_where q) (q_offset q) (q_limit q) true.

Definition update_ (body : UpdateEventBody) : QueryBuilderFunction :=
  with_method (MUpdate body).

Definition returning_all (q : QueryBuilder) : QueryBuilder :=
  mkQuery (q_table q) (q_method q) (q_where q) (q_offset q) (q_limit q) true.

Definition offset (n : nat) (q : QueryBuilder) : QueryBuilder :=
  mkQuery (q_table q) (q_method q) (q_where q) (Some n) (q_limit q) (q_returning q).

Definition limit (n : nat) (q : QueryBuilder) : QueryBuilder :=
  mkQuery (q_table q) (q_method q) (q_where q) (q_offset q) (Some n) (q_returning q).

(** *** The query filter composer (events.resource) *)

Definition documentVector (queryString : option string) : QueryBuilderFunction :=
  fun query =>
    whereRaw ("document @@ to_tsquery('" ++ Js.str queryString ++ "')") query.

Definition filterbyField (field value : option string) : QueryBuilderFunction :=
  fun query => where_ field value query.

Definition filterByDateEqualTo (dateField : string) (date : option string)
  : QueryBuilderFunction :=
  fun query => where_ (Some dateField) date query.

(** [if (c) { fs.push(f) }] *)
Definition push_if {A : Type} (c : bool) (f : A) (fs : list A) : list A :=
  if c then fs ++ [f] else fs.

Definition getQueryBuilderFunctions (filterBody : Js.object)
  : list QueryBuilderFunction :=
  let filterQueryFunctions := [] in
  let filterQueryFunctions :=
    push_if (Js.truthy (Js.get "location" filterBody))
            (filterbyField (Js.get "LOCATION" EventsFilterFields)
                           (Js.get "location" filterBody))
            filterQueryFunctions in
  let filterQueryFunctions :=
    push_if (Js.truthy (Js.get "title" filterBody))
            (filterbyField (Js.get "TITLE" EventsFilterFields)
                           (Js.get "title" filterBody))
            filterQueryFunctions in
  let filterQueryFunctions :=
    push_if (Js.truthy (Js.get "date" filterBody))
            (filterByDateEqualTo "date" (Js.get "date" filterBody))
            filterQueryFunctions in
  let filterQueryFunctions :=
    push_if (Js.truthy (Js.get "rsvpEndDate" filterBody))
            (filterByDateEqualTo "rsvpEndDate" (Js.get "date" filterBody))
            filterQueryFunctions in
  let filterQueryFunctions :=
    push_if (Js.truthy (Js.get "q" filterBody))
            (documentVector (Js.get "q" filterBody))
            filterQueryFunctions in
  filterQueryFunctions.

(** Modelled from the spec: [pipe] of [lib/util/functionalUtils], which is
    not part of the sources.  The specification describes the composed
    function as a left-to-right fold in which each transform receives the
    query produced by the previous one, and as the identity for no
    transform. *)
Definition pipe {A : Type} (fns : list (A -> A)) : A -> A :=
  fun x => fold_left (fun acc f => f acc) fns x.

(** *** The store and the execution of a query *)

(** The rows of the [events] table, in storage order. *)
Definition Store := list RawEventBody.

(** The columns of [events]: the properties of the rows the resource
    inserts and reads back. *)
Definition column (c : string) (r : RawEventBody) : option string :=
  if String.eqb c "id" then Some (id r)
  else if String.eqb c "tittle" then Some (tittle (event r))
  else if String.eqb c "slug" then Some (slug (event r))
  else if String.eqb c "description" then Some (description (event r))
  else if String.eqb c "location" then Some (location (event r))
  else if String.eqb c "date" then Some (date (event r))
  else if String.eqb c "time" then Some (time (event r))
  else if String.eqb c "rsvpEndDate" then Some (rsvpEndDate (event r))
  else if String.eqb c "createdBy" then Some (createdBy (event r))
  else None.

Definition columns : list string :=
  ["id"; "tittle"; "slug"; "description"; "location"; "date"; "time";
   "rsvpEndDate"; "createdBy"].

Definition is_column (c : string) : bool :=
  existsb (String.eqb c) columns.

Definition column_equals (c v : string) (r : RawEventBody) : bool :=
  match column c r with
  | Some x => String.eqb x v
  | None => false
  end.

(** [update(body)] sets the properties present in the body. *)
Definition or_old (new : option string) (old : string) : string :=
  match new with
  | Some v => v
  | None => old
  end.

(** An update body with no property set: there is nothing to write. *)
Definition is_empty_update (u : UpdateEventBody) : bool :=
  match upd_tittle u, upd_slug u, upd_description u, upd_location u,
        upd_date u, upd_time u, upd_rsvpEndDate u, upd_createdBy u with
  | None, None, None, None, None, None, None, None => true
  | _, _, _, _, _, _, _, _ => false
  end.

Definition apply_update (u : UpdateEventBody) (r : RawEventBody) : RawEventBody :=
  mkRaw (id r)
    (mkEventBody
       (or_old (upd_tittle u) (tittle (event r)))
       (or_old (upd_slug u) (slug (event r)))
       (or_old (upd_description u) (description (event r)))
       (or_old (upd_location u) (location (event r)))
       (or_old (upd_date u) (date (event r)))
       (or_old (upd_time u) (time (event r)))
       (or_old (upd_rsvpEndDate u) (rsvpEndDate (event r)))
       (or_old (upd_createdBy u) (createdBy (event r)))).

(** What an awaited query resolves to. *)
Inductive JsValue :=
| JUndefined
| JNumber (n : nat)
| JRow (r : RawEventBody)
| JArray (rows : list RawEventBody).

(** [v[0]] *)
Definition index0 (v : JsValue) : JsValue :=
  match v with
  | JArray (r :: _) => JRow r
  | _ => JUndefined
  end.

(** [v.length], read for its truthiness only; an array is the only value
    that has one. *)
Definition js_length (v : JsValue) : nat :=
  match v with
  | JArray rows => length rows
  | _ => 0
  end.

(** A query builder is an object, and every object is truthy. *)
Definition truthy_object (q : QueryBuilder) : bool := true.

Definition skip (o : option nat) (rows : list RawEventBody) : list RawEventBody :=
  match o with
  | Some n => skipn n rows
  | None => rows
  end.

Definition take (o : option nat) (rows : list RawEventBody) : list RawEventBody :=
  match o with
  | Some n => firstn n rows
  | None => rows
  end.

Section Resource.

(** The identifier the storage generates for a new row. *)
Variable fresh_id : Store -> string.

(** The meaning of a raw SQL condition with its bindings: the rows it
    selects, or [None] when the database rejects the text. *)
Variable raw_sql : string -> list string -> option (RawEventBody -> bool).

(** The text of a raw condition is sent to the database as it is, and a
    text may close the condition and carry statements of its own.  This is
    what those statements do to the table when the database accepts the
    text; for a text that holds a condition only it is the identity. *)
Variable raw_statements : string -> list string -> Store -> Store.

(** One where clause as a row predicate; [None] when the query cannot be
    run: an [undefined] column or value, or a column the table lacks. *)
Definition compile_where (w : Where) : option (RawEventBody -> bool) :=
  match w with
  | WhereBasic (Some c) (Some v) =>
      if is_column c then Some (column_equals c v) else None
  | WhereBasic _ _ => None
  | WhereRaw sql bindings => raw_sql sql bindings
  end.

(** The clauses of a query are ANDed. *)
Fixpoint compile_wheres (ws : list Where) : option (RawEventBody -> bool) :=
  match ws with
  | [] => Some (fun _ => true)
  | w :: ws' =>
      match compile_where w, compile_wheres ws' with
      | Some p, Some ps => Some (fun r => p r && ps r)
      | _, _ => None
      end
  end.

(** What the statements carried by the raw clauses of a query do to the
    table, clause after clause. *)
Definition further_statements (ws : list Where) (db : Store) : Store :=
  fold_left
    (fun db w =>
       match w with
       | WhereBasic _ _ => db
       | WhereRaw sql bindings => raw_statements sql bindings db
       end)
    ws db.

(** A computation on the store that resolves or rejects. *)
Definition M (A : Type) := Store -> Result A * Store.

Definition ret {A : Type} (a : A) : M A := fun db => (Ok a, db).

Definition throw {A : Type} (e : Error) : M A := fun db => (Err e, db).

Definition bind {A B : Type} (m : M A) (k : A -> M B) : M B :=
  fun db =>
    match m db with
    | (Ok a, db') => k a db'
    | (Err e, db') => (Err e, db')
    end.

Notation "x <- m ;; k" := (bind m (fun x => k))
  (at level 61, m at next level, right associativity).

(** [await query]: run the query against the store.  A query that is
    refused leaves the table as it is.  The query builder refuses an update
    with nothing to set. *)
Definition await (q : QueryBuilder) : M JsValue :=
  fun db =>
    if negb (String.eqb (q_table q) EVENTS_TABLE) then (Err StorageError, db)
    else
      match compile_wheres (q_where q) with
      | None => (Err StorageError, db)
      | Some p =>
          let after := further_statements (q_where q) in
          match q_method q with
          | MSelect =>
              (Ok (JArray (take (q_limit q) (skip (q_offset q) (filter p db)))),
               after db)
          | MFirst =>
              (Ok (match skip (q_offset q) (filter p db) with
                   | r :: _ => JRow r
                   | [] => JUndefined
                   end), after db)
          | MInsert body =>
              let r := mkRaw (fresh_id db) body in
              (Ok (if q_returning q then JArray [r] else JNumber 1),
               after (db ++ [r]))
          | MUpdate body =>
              if is_empty_update body then (Err StorageError, db)
              else
                let updated := map (apply_update body) (filter p db) in
                (Ok (if q_returning q then JArray updated
                     else JNumber (length updated)),
                 after (map (fun r => if p r then apply_update body r else r) db))
          | MDelete =>
              (Ok (JNumber (length (filter p db))),
               after (filter (fun r => negb (p r)) db))
          end
      end.

(** *** The resource operations *)

Definition create (eventBody : EventBody) : M JsValue :=
  created <- await (insert eventBody (knexInstance EVENTS_TABLE)) ;;
  ret (index0 created).

(** The query is built but not awaited before the check: the check sees
    the builder object, and the function resolves to what the query gives. *)
Definition getEvent (lookupKey : EventLookUpKey) (value : string) : M JsValue :=
  let event :=
    first (where_ (Some (lookup_key_value lookupKey)) (Some value)
                  (knexInstance EVENTS_TABLE)) in
  if negb (truthy_object event) then
    throw (EventNotFountError
             ("no event with " ++ lookup_key_value lookupKey ++ " " ++ value
              ++ " found") None)
  else await event.

Definition filterEvents (filterBody : Js.object) : M JsValue :=
  let baseQuey := knexInstance EVENTS_TABLE in
  let queryBuilderFunctions := getQueryBuilderFunctions filterBody in
  let queryBuilder := pipe queryBuilderFunctions in
  let query := queryBuilder baseQuey in
  await query.

Definition getAll (offset_ limit_ : nat) : M JsValue :=
  events <- await (limit limit_ (offset offset_
                     (select_all (knexInstance EVENTS_TABLE)))) ;;
  if Nat.eqb (js_length events) 0 then
    throw (EventNotFountError "no events found that match your query" (Some 404))
  else ret events.

Definition update (updateBody : UpdateEventBody) (eventId : string) : M JsValue :=
  updatedEvent <- await (returning_all
                           (where_ (Some "id") (Some eventId)
                              (update_ updateBody (knexInstance EVENTS_TABLE)))) ;;
  ret (index0 updatedEvent).

Definition delete (eventId : string) : M unit :=
  _ <- await (where_ (Some "id") (Some eventId)
                (delete_ (knexInstance EVENTS_TABLE))) ;;
  ret tt.

(** *** The composer, described by its table

    The five recognised properties in the order the composer visits them,
    each with the where clause its transform adds. *)
Definition recognised : list (string * (Js.object -> Where)) :=
  [ ("location", fun fb => WhereBasic (Some "location") (Js.get "location" fb));
    ("title", fun fb => WhereBasic None (Js.get "title" fb));
    ("date", fun fb => WhereBasic (Some "date") (Js.get "date" fb));
    ("rsvpEndDate", fun fb => WhereBasic (Some "rsvpEndDate") (Js.get "date" fb));
    ("q", fun fb =>
            WhereRaw ("document @@ to_tsquery('" ++ Js.str (Js.get "q" fb) ++ "')")
                     []) ].

(** The entries whose property is present and non-empty. *)
Definition present (fb : Js.object) : list (string * (Js.object -> Where)) :=
  filter (fun p => Js.truthy (Js.get (fst p) fb)) recognised.

Definition clauses (fb : Js.object) : list Where :=
  map (fun p => snd p fb) (present fb).

(** *** Facts about the composer *)

Lemma pipe_nil {A : Type} (x : A) : pipe [] x = x.
Proof. reflexivity. Qed.

Lemma pipe_cons {A : Type} (f : A -> A) (fns : list (A -> A)) (x : A) :
  pipe (f :: fns) x = pipe fns (f x).
Proof. reflexivity. Qed.

Lemma pipe_app {A : Type} (fns gns : list (A -> A)) (x : A) :
  pipe (fns ++ gns) x = pipe gns (pipe fns x).
Proof. unfold pipe. apply fold_left_app. Qed.

Lemma pipe_add_where (ws : list Where) (q : QueryBuilder) :
  pipe (map add_where ws) q =
  mkQuery (q_table q) (q_method q) (q_where q ++ ws)
          (q_offset q) (q_limit q) (q_returning q).
Proof.
  revert q. induction ws as [| w ws IH]; intros q.
  - destruct q; simpl. now rewrite app_nil_r.
  - simpl map. rewrite pipe_cons, IH. unfold add_where; simpl.
    now rewrite <- app_assoc.
Qed.

(** Every transform of the composer adds the clause of its table entry. *)
Lemma getQueryBuilderFunctions_clauses (fb : Js.object) :
  getQueryBuilderFunctions fb = map add_where (clauses fb).
Proof.
  unfold getQueryBuilderFunctions, clauses, present, recognised, push_if.
  cbn [filter fst snd].
  destruct (Js.truthy (Js.get "location" fb));
    destruct (Js.truthy (Js.get "title" fb));
    destruct (Js.truthy (Js.get "date" fb));
    destruct (Js.truthy (Js.get "rsvpEndDate" fb));
    destruct (Js.truthy (Js.get "q" fb)); reflexivity.
Qed.

Lemma composed_query (fb : Js.object) (q : QueryBuilder) :
  pipe (getQueryBuilderFunctions fb) q =
  mkQuery (q_table q) (q_method q) (q_where q ++ clauses fb)
          (q_offset q) (q_limit q) (q_returning q).
Proof. rewrite getQueryBuilderFunctions_clauses. apply pipe_add_where. Qed.

Lemma getQueryBuilderFunctions_Permutation (fb fb' : Js.object) :
  NoDup (Js.keys fb) -> Permutation fb fb' ->
  getQueryBuilderFunctions fb' = getQueryBuilderFunctions fb.
Proof.
  intros Hnd Hp. unfold getQueryBuilderFunctions.
  now rewrite !(Js.get_Permutation _ fb fb' Hnd Hp).
Qed.

(** C4: the composer contributes one transform for each recognised
    property that is present and non-empty, always in the order location,
    title, date, rsvpEndDate, q; the composed function applies them to the
    base query as a left-to-right fold, so the clauses reach the query in
    that order; and the order in which the properties were set on the
    filter body plays no part. *)
Theorem composer_fixed_order (fb : Js.object) (q : QueryBuilder) :
  map fst recognised = ["location"; "title"; "date"; "rsvpEndDate"; "q"]
  /\ getQueryBuilderFunctions fb =
     map (fun p => add_where (snd p fb))
         (filter (fun p => Js.truthy (Js.get (fst p) fb)) recognised)
  /\ pipe (getQueryBuilderFunctions fb) q =
     fold_left (fun acc f => f acc) (getQueryBuilderFunctions fb) q
  /\ q_where (pipe (getQueryBuilderFunctions fb) q) = q_where q ++ clauses fb
  /\ (forall fb', NoDup (Js.keys fb) -> Permutation fb fb' ->
        getQueryBuilderFunctions fb' = getQueryBuilderFunctions fb).
Proof.
  split; [reflexivity |].
  split.
  { rewrite getQueryBuilderFunctions_clauses. unfold clauses, present.
    now rewrite map_map. }
  split; [reflexivity |].
  split.
  { now rewrite composed_query. }
  intros fb'. apply getQueryBuilderFunctions_Permutation.
Qed.

(** C9: when rsvpEndDate is present, the transform the composer appends
    compares the rsvpEndDate column with the filter's date property, not
    with its rsvpEndDate property; with date absent the column is compared
    with undefined. *)
Theorem rsvpEndDate_filter_uses_date (fb : Js.object) :
  Js.truthy (Js.get "rsvpEndDate" fb) = true ->
  let query := pipe (getQueryBuilderFunctions fb) (knexInstance EVENTS_TABLE) in
  In (WhereBasic (Some "rsvpEndDate") (Js.get "date" fb)) (q_where query)
  /\ (forall v, In (WhereBasic (Some "rsvpEndDate") v) (q_where query) ->
        v = Js.get "date" fb)
  /\ (Js.get "date" fb = None ->
        In (WhereBasic (Some "rsvpEndDate") None) (q_where query)).
Proof.
  intros Hrsvp query. subst query. rewrite composed_query.
  unfold clauses, present, recognised. cbn [filter fst snd q_where knexInstance].
  rewrite Hrsvp.
  assert (Hin : forall ws,
             In (WhereBasic (Some "rsvpEndDate") (Js.get "date" fb)) ws ->
             Js.get "date" fb = None ->
             In (WhereBasic (Some "rsvpEndDate") None) ws).
  { intros ws H E. now rewrite E in H. }
  destruct (Js.truthy (Js.get "location" fb));
    destruct (Js.truthy (Js.get "title" fb));
    destruct (Js.truthy (Js.get "date" fb));
    destruct (Js.truthy (Js.get "q" fb));
    cbn [map app fst snd];
    (split; [simpl; tauto |]);
    (split; [| apply Hin; simpl; tauto]);
    intros v Hv; simpl in Hv;
    repeat (destruct Hv as [Hv | Hv]; [try discriminate; try congruence |]);
    try contradiction.
Qed.

(** C3, as the code has it: the search string is spliced into the text of
    the raw condition, and the condition carries no bound parameter. *)
Theorem documentVector_interpolates (queryString : string) (query : QueryBuilder) :
  q_where (documentVector (Some queryString) query) =
  q_where query ++
  [WhereRaw ("document @@ to_tsquery('" ++ queryString ++ "')") []].
Proof. reflexivity. Qed.

(** A search string that closes the quote becomes part of the condition. *)
Example documentVector_quote :
  q_where (documentVector (Some "x') or (1=1") (knexInstance EVENTS_TABLE)) =
  [WhereRaw "document @@ to_tsquery('x') or (1=1')" []].
Proof. reflexivity. Qed.

(** The sibling transforms pass their value as a value of the clause. *)
Lemma filterbyField_binds (field value : option string) (query : QueryBuilder) :
  q_where (filterbyField field value query) =
  q_where query ++ [WhereBasic field value].
Proof. reflexivity. Qed.

(** *** Facts about the execution of a query *)

Lemma filter_all {A : Type} (l : list A) : filter (fun _ => true) l = l.
Proof. induction l as [| a l IH]; simpl; congruence. Qed.

Lemma filter_none {A : Type} (p : A -> bool) (l : list A) :
  (forall a, In a l -> p a = false) -> filter p l = [].
Proof.
  induction l as [| a l IH]; simpl; intros H; [reflexivity |].
  rewrite (H a (or_introl eq_refl)). apply IH. intros b Hb. apply H. now right.
Qed.

Lemma filter_negb_self {A : Type} (p : A -> bool) (l : list A) :
  filter p (filter (fun a => negb (p a)) l) = [].
Proof.
  apply filter_none. intros a Ha. apply filter_In in Ha.
  destruct Ha as [_ Ha]. now destruct (p a).
Qed.

(** Updating the selected rows in place keeps them selected, provided the
    update does not change what the selection looks at. *)
Lemma filter_update_in_place {A : Type} (p : A -> bool) (g : A -> A) (l : list A) :
  (forall a, p (g a) = p a) ->
  filter p (map (fun a => if p a then g a else a) l) = map g (filter p l).
Proof.
  intros Hg. induction l as [| a l IH]; simpl; [reflexivity |].
  destruct (p a) eqn:E.
  - rewrite Hg, E. simpl. now rewrite IH.
  - rewrite E. exact IH.
Qed.

Lemma find_filter {A : Type} (p : A -> bool) (l : list A) (a : A) :
  find p l = Some a -> exists rest, filter p l = a :: rest.
Proof.
  induction l as [| b l IH]; simpl; [discriminate |].
  destruct (p b).
  - intros [= ->]. now exists (filter p l).
  - exact IH.
Qed.

(** The only error a query itself gives is the storage's. *)
Lemma await_error (q : QueryBuilder) (db : Store) (e : Error) :
  fst (await q db) = Err e -> e = StorageError.
Proof.
  unfold await.
  destruct (negb (String.eqb (q_table q) EVENTS_TABLE)); simpl;
    [congruence |].
  destruct (compile_wheres (q_where q)); simpl; [| congruence].
  destruct (q_method q) as [| | | body |]; simpl; try discriminate.
  destruct (is_empty_update body); simpl; [congruence | discriminate].
Qed.

(** Clauses that compare a column with a value carry no statement. *)
Definition raw_free (ws : list Where) : bool :=
  forallb (fun w => match w with WhereBasic _ _ => true | WhereRaw _ _ => false end)
          ws.

Lemma further_statements_raw_free (ws : list Where) (db : Store) :
  raw_free ws = true -> further_statements ws db = db.
Proof.
  unfold further_statements. revert db.
  induction ws as [| w ws IH]; intros db H; [reflexivity |].
  cbn [raw_free forallb] in H. apply andb_true_iff in H. destruct H as [Hw H].
  destruct w; [| discriminate]. cbn [fold_left]. now apply IH.
Qed.

(** Only the clause for q is raw. *)
Lemma clauses_raw_free (fb : Js.object) :
  Js.truthy (Js.get "q" fb) = false -> raw_free (clauses fb) = true.
Proof.
  intros Hq. unfold clauses, present, recognised. cbn [filter fst snd].
  rewrite Hq.
  destruct (Js.truthy (Js.get "location" fb));
    destruct (Js.truthy (Js.get "title" fb));
    destruct (Js.truthy (Js.get "date" fb));
    destruct (Js.truthy (Js.get "rsvpEndDate" fb)); reflexivity.
Qed.

(** A select on [events] whose clauses compile gives the selected rows,
    after the offset and up to the limit; the store is left to what the
    raw clauses carry. *)
Lemma await_select (q : QueryBuilder) (p : RawEventBody -> bool) (db : Store) :
  q_table q = EVENTS_TABLE -> q_method q = MSelect ->
  compile_wheres (q_where q) = Some p ->
  await q db =
  (Ok (JArray (take (q_limit q) (skip (q_offset q) (filter p db)))),
   further_statements (q_where q) db).
Proof.
  intros Ht Hm Hw. unfold await. now rewrite Ht, Hw, Hm.
Qed.

Lemma filterEvents_await (fb : Js.object) (db : Store) :
  filterEvents fb db =
  await (mkQuery EVENTS_TABLE MSelect (clauses fb) None None false) db.
Proof. unfold filterEvents. now rewrite composed_query. Qed.

Lemma filterEvents_select_raw
  (fb : Js.object) (p : RawEventBody -> bool) (db : Store) :
  compile_wheres (clauses fb) = Some p ->
  filterEvents fb db =
  (Ok (JArray (filter p db)), further_statements (clauses fb) db).
Proof.
  intros Hw. rewrite filterEvents_await.
  now rewrite (await_select _ p) by (reflexivity || exact Hw).
Qed.

Lemma filterEvents_select (fb : Js.object) (p : RawEventBody -> bool) (db : Store) :
  Js.truthy (Js.get "q" fb) = false ->
  compile_wheres (clauses fb) = Some p ->
  filterEvents fb db = (Ok (JArray (filter p db)), db).
Proof.
  intros Hq Hw. rewrite (filterEvents_select_raw fb p db Hw).
  now rewrite further_statements_raw_free by (apply clauses_raw_free; exact Hq).
Qed.

Lemma filterEvents_rejected (fb : Js.object) (db : Store) :
  compile_wheres (clauses fb) = None ->
  filterEvents fb db = (Err StorageError, db).
Proof.
  intros Hw. rewrite filterEvents_await. unfold await. simpl. now rewrite Hw.
Qed.

(** The id lookup of [getEvent], [update] and [delete] as a row predicate. *)
Lemma compile_lookup (k : EventLookUpKey) (v : string) :
  compile_wheres [WhereBasic (Some (lookup_key_value k)) (Some v)] =
  Some (fun r => column_equals (lookup_key_value k) v r && true).
Proof. destruct k; reflexivity. Qed.

Lemma getEvent_await (k : EventLookUpKey) (v : string) (db : Store) :
  getEvent k v db =
  (Ok (match filter (column_equals (lookup_key_value k) v) db with
       | r :: _ => JRow r
       | [] => JUndefined
       end), db).
Proof.
  unfold getEvent, truthy_object, await. cbn [negb q_table first with_method
    where_ add_where knexInstance q_where q_method q_offset app skip].
  change (String.eqb EVENTS_TABLE EVENTS_TABLE) with true. cbn [negb].
  rewrite compile_lookup. cbn [further_statements fold_left].
  rewrite (filter_ext _ (column_equals (lookup_key_value k) v)); [reflexivity |].
  intros r. apply andb_true_r.
Qed.

(** *** The filter operation *)

(** C5: for the filter body with no property at all the composer gives no
    transform, the composed function is the identity on queries, and
    [filterEvents] resolves to every row of the table. *)
Theorem empty_filter_returns_all (db : Store) :
  getQueryBuilderFunctions [] = []
  /\ (forall q : QueryBuilder, pipe (getQueryBuilderFunctions []) q = q)
  /\ filterEvents [] db = (Ok (JArray db), db).
Proof.
  split; [reflexivity |]. split; [reflexivity |].
  rewrite (filterEvents_select [] (fun _ => true)) by reflexivity.
  now rewrite filter_all.
Qed.

(** The same holds for a body that only has properties the composer does
    not look at. *)
Lemma unrecognised_filter_returns_all (fb : Js.object) (db : Store) :
  Forall (fun k => Js.get k fb = None) (map fst recognised) ->
  filterEvents fb db = (Ok (JArray db), db).
Proof.
  intros H. cbn in H.
  repeat match goal with
         | H : Forall _ (_ :: _) |- _ => inversion H; subst; clear H
         end.
  rewrite (filterEvents_select fb (fun _ => true)).
  - now rewrite filter_all.
  - match goal with H : Js.get "q" fb = None |- _ => now rewrite H end.
  - unfold clauses, present, recognised. cbn [filter fst].
    now repeat match goal with
               | H : Js.get _ fb = None |- _ => rewrite H; clear H
               end.
Qed.

(** Filtering on location alone gives the rows at that location. *)
Lemma filterEvents_location_only (v : string) (db : Store) :
  v <> "" ->
  filterEvents [("location", v)] db =
  (Ok (JArray (filter (fun r => String.eqb (location (event r)) v) db)), db).
Proof.
  intros Hv.
  rewrite (filterEvents_select _
             (fun r => column_equals "location" v r && true)).
  - f_equal. f_equal. f_equal. apply filter_ext. intros r. apply andb_true_r.
  - reflexivity.
  - unfold clauses, present, recognised. cbn [filter fst Js.get Js.truthy].
    cbn. apply String.eqb_neq in Hv. now rewrite Hv.
Qed.

(** Filtering on date alone gives the rows on that date. *)
Lemma filterEvents_date_only (v : string) (db : Store) :
  v <> "" ->
  filterEvents [("date", v)] db =
  (Ok (JArray (filter (fun r => String.eqb (date (event r)) v) db)), db).
Proof.
  intros Hv.
  rewrite (filterEvents_select _
             (fun r => column_equals "date" v r && true)).
  - f_equal. f_equal. f_equal. apply filter_ext. intros r. apply andb_true_r.
  - reflexivity.
  - unfold clauses, present, recognised. cbn [filter fst Js.get Js.truthy].
    cbn. apply String.eqb_neq in Hv. now rewrite Hv.
Qed.

(** C1, as the code has it: a filter body with rsvpEndDate alone compares
    the rsvpEndDate column with the absent date property, and the query is
    rejected whatever the table holds; no row is returned. *)
Theorem filterEvents_rsvpEndDate_only (db : Store) :
  filterEvents [("rsvpEndDate", "2030-01-01")] db = (Err StorageError, db).
Proof. now apply filterEvents_rejected. Qed.

(** With title alone the clause names no column: the enum has no member
    [TITLE], and the query is rejected as well. *)
Lemma filterEvents_title_only (db : Store) :
  filterEvents [("title", "Launch")] db = (Err StorageError, db).
Proof. now apply filterEvents_rejected. Qed.

(** *** Lookup and deletion *)

(** When no row matches, the lookup resolves to [undefined]. *)
Lemma getEvent_no_match (k : EventLookUpKey) (v : string) (db : Store) :
  (forall r, In r db -> column_equals (lookup_key_value k) v r = false) ->
  getEvent k v db = (Ok JUndefined, db).
Proof.
  intros H. rewrite getEvent_await. now rewrite filter_none.
Qed.

Lemma delete_store (eventId : string) (db : Store) :
  delete eventId db =
  (Ok tt, filter (fun r => negb (column_equals "id" eventId r)) db).
Proof.
  unfold delete, bind, ret, await. cbn.
  f_equal. apply filter_ext. intros r. now rewrite andb_true_r.
Qed.

(** C2, as the code has it: [getEvent] never rejects with the not-found
    error, and after [delete(id)] the lookup by that id resolves to
    [undefined]. *)
Theorem delete_then_getEvent (eventId : string) (db : Store) :
  (forall k v msg st, fst (getEvent k v db) <> Err (EventNotFountError msg st))
  /\ (_ <- delete eventId ;; getEvent ID eventId) db =
     (Ok JUndefined,
      filter (fun r => negb (String.eqb (id r) eventId)) db).
Proof.
  split.
  - intros k v msg st. rewrite getEvent_await. discriminate.
  - unfold bind. rewrite delete_store, getEvent_await.
    change (lookup_key_value ID) with "id".
    now rewrite (filter_negb_self (column_equals "id" eventId)).
Qed.

(** *** Pagination *)

Definition no_events : Error :=
  EventNotFountError "no events found that match your query" (Some 404).

Lemma getAll_await (offset_ limit_ : nat) (db : Store) :
  getAll offset_ limit_ db =
  (match firstn limit_ (skipn offset_ db) with
   | [] => Err no_events
   | page => Ok (JArray page)
   end, db).
Proof.
  unfold getAll, bind.
  rewrite (await_select _ (fun _ => true)) by reflexivity.
  cbn [q_limit q_offset limit offset take skip]. rewrite filter_all.
  cbn [js_length].
  destruct (firstn limit_ (skipn offset_ db)); reflexivity.
Qed.

(** [getAll] skips [offset] rows and returns at most [limit] rows; it
    rejects with the not-found error of status 404 exactly when that page
    is empty, which includes every offset at or beyond the number of rows;
    [filterEvents] resolves to the empty list when its query can be run,
    carries no search text and selects no row, and never rejects with the
    not-found error. *)
Lemma getAll_page (offset_ limit_ : nat) (db : Store) :
  let page := firstn limit_ (skipn offset_ db) in
  getAll offset_ limit_ db =
    (match page with [] => Err no_events | _ => Ok (JArray page) end, db)
  /\ length page <= limit_
  /\ (getAll offset_ limit_ db = (Err no_events, db) <-> page = [])
  /\ (length db <= offset_ -> getAll offset_ limit_ db = (Err no_events, db))
  /\ (forall fb p,
        Js.truthy (Js.get "q" fb) = false ->
        compile_wheres (clauses fb) = Some p ->
        (forall r, In r db -> p r = false) ->
        filterEvents fb db = (Ok (JArray []), db))
  /\ (forall fb msg st,
        fst (filterEvents fb db) <> Err (EventNotFountError msg st)).
Proof.
  intros page. subst page.
  split.
  { rewrite getAll_await.
    now destruct (firstn limit_ (skipn offset_ db)). }
  split; [apply firstn_le_length |].
  split.
  { rewrite getAll_await.
    destruct (firstn limit_ (skipn offset_ db)); split; congruence. }
  split.
  { intros Hlen. rewrite getAll_await, skipn_all2 by exact Hlen.
    now rewrite firstn_nil. }
  split.
  { intros fb p Hq Hw Hp. rewrite (filterEvents_select fb p db Hq Hw).
    now rewrite filter_none. }
  intros fb msg st H. rewrite filterEvents_await in H.
  apply await_error in H. discriminate.
Qed.

(** C6, as the code has it: on a table where no row matches,
    [filterEvents] with a title (or with an rsvpEndDate alone) does not
    resolve to the empty list: the query is refused and the call
    rejects. *)
Theorem filterEvents_no_match_rejected :
  filterEvents [("title", "zzz")] [] = (Err StorageError, [])
  /\ filterEvents [("rsvpEndDate", "2030-01-01")] [] = (Err StorageError, []).
Proof. split; now apply filterEvents_rejected. Qed.

(** *** Creation and update *)

Lemma create_await (eventBody : EventBody) (db : Store) :
  create eventBody db =
  (Ok (JRow (mkRaw (fresh_id db) eventBody)),
   db ++ [mkRaw (fresh_id db) eventBody]).
Proof. reflexivity. Qed.

(** C8: [create] appends a row made of the body and the identifier the
    storage generates and resolves to that row; as the identifier is new
    to the table, the lookup by it resolves to the same row. *)
Theorem create_then_getEvent (eventBody : EventBody) (db : Store) :
  ~ In (fresh_id db) (map id db) ->
  exists r,
    create eventBody db = (Ok (JRow r), db ++ [r])
    /\ event r = eventBody
    /\ id r = fresh_id db
    /\ getEvent ID (id r) (db ++ [r]) = (Ok (JRow r), db ++ [r]).
Proof.
  intros Hfresh. exists (mkRaw (fresh_id db) eventBody).
  split; [apply create_await |]. split; [reflexivity |].
  split; [reflexivity |].
  rewrite getEvent_await, filter_app. cbn [id].
  rewrite filter_none.
  - cbn. now rewrite String.eqb_refl.
  - intros r Hr. cbn. apply String.eqb_neq. intros E. apply Hfresh.
    rewrite <- E. now apply in_map.
Qed.

(** The properties an update body can carry, each with the column of the
    row it sets. *)
Definition update_fields
  : list ((UpdateEventBody -> option string) * (EventBody -> string)) :=
  [ (upd_tittle, tittle); (upd_slug, slug); (upd_description, description);
    (upd_location, location); (upd_date, date); (upd_time, time);
    (upd_rsvpEndDate, rsvpEndDate); (upd_createdBy, createdBy) ].

Lemma apply_update_fields (u : UpdateEventBody) (r : RawEventBody) :
  id (apply_update u r) = id r
  /\ forall uf rf, In (uf, rf) update_fields ->
       (forall v, uf u = Some v -> rf (event (apply_update u r)) = v)
       /\ (uf u = None -> rf (event (apply_update u r)) = rf (event r)).
Proof.
  split; [reflexivity |].
  intros uf rf Hin. unfold update_fields in Hin. simpl in Hin.
  repeat (destruct Hin as [Hin | Hin];
          [injection Hin as <- <-; simpl; split;
           [intros v E; now rewrite E | intros E; now rewrite E] |]).
  contradiction.
Qed.

(** The query builder refuses an update body with no property set, and
    the table stays as it is. *)
Lemma update_empty (updateBody : UpdateEventBody) (eventId : string) (db : Store) :
  is_empty_update updateBody = true ->
  update updateBody eventId db = (Err StorageError, db).
Proof.
  intros Hu. unfold update, bind, ret, await.
  cbn [q_table q_where q_method q_returning returning_all where_ add_where
       update_ with_method knexInstance app].
  change (String.eqb EVENTS_TABLE EVENTS_TABLE) with true. cbn [negb].
  change (compile_wheres [WhereBasic (Some "id") (Some eventId)])
    with (Some (fun x => String.eqb (id x) eventId && true)).
  cbn iota zeta. now rewrite Hu.
Qed.

Lemma update_store (updateBody : UpdateEventBody) (eventId : string) (db : Store) :
  is_empty_update updateBody = false ->
  update updateBody eventId db =
  (Ok (index0 (JArray (map (apply_update updateBody)
                         (filter (fun x => String.eqb (id x) eventId) db)))),
   map (fun x => if String.eqb (id x) eventId
                 then apply_update updateBody x else x) db).
Proof.
  intros Hu. unfold update, bind, ret, await.
  cbn [q_table q_where q_method q_returning returning_all where_ add_where
       update_ with_method knexInstance app].
  change (String.eqb EVENTS_TABLE EVENTS_TABLE) with true. cbn [negb].
  change (compile_wheres [WhereBasic (Some "id") (Some eventId)])
    with (Some (fun x => String.eqb (id x) eventId && true)).
  cbn iota zeta. rewrite Hu. cbn [further_statements fold_left].
  rewrite (filter_ext _ (fun x => String.eqb (id x) eventId))
    by (intros x; apply andb_true_r).
  f_equal. apply map_ext. intros x. now rewrite andb_true_r.
Qed.

(** C7, as amended: for a body that sets at least one property and an id
    that matches a row, [update] resolves to that row with the properties
    of the body set and every other column as it was, the id included; the
    lookup by the id then resolves to the same row, and the rows with
    another id are untouched. *)
Theorem update_then_getEvent
  (updateBody : UpdateEventBody) (eventId : string) (db : Store)
  (r : RawEventBody) :
  is_empty_update updateBody = false ->
  find (fun x => String.eqb (id x) eventId) db = Some r ->
  let r' := apply_update updateBody r in
  let db' := map (fun x => if String.eqb (id x) eventId
                           then apply_update updateBody x else x) db in
  update updateBody eventId db = (Ok (JRow r'), db')
  /\ getEvent ID eventId db' = (Ok (JRow r'), db')
  /\ id r' = id r
  /\ (forall uf rf, In (uf, rf) update_fields ->
        (forall v, uf updateBody = Some v -> rf (event r') = v)
        /\ (uf updateBody = None -> rf (event r') = rf (event r)))
  /\ (forall x, In x db -> id x <> eventId -> In x db').
Proof.
  intros Hbody Hfind r' db'.
  destruct (find_filter _ _ _ Hfind) as [rest Hrest].
  split.
  { rewrite (update_store _ _ _ Hbody), Hrest. reflexivity. }
  split.
  { rewrite getEvent_await. change (lookup_key_value ID) with "id".
    change (column_equals "id" eventId)
      with (fun x => String.eqb (id x) eventId).
    subst db'. rewrite filter_update_in_place by reflexivity.
    now rewrite Hrest. }
  split; [reflexivity |].
  split; [apply apply_update_fields |].
  intros x Hx Hne. subst db'. apply in_map_iff. exists x. split; [| exact Hx].
  apply String.eqb_neq in Hne. now rewrite Hne.
Qed.

(** *** More on the filter operation *)

(** What a filter body asks of a row on one column: nothing when the
    property is absent or empty, equality with the column otherwise. *)
Definition wants (k : string) (fb : Js.object) (r : RawEventBody) : bool :=
  match Js.get k fb with
  | Some v => if String.eqb v "" then true else column_equals k v r
  | None => true
  end.

Lemma clause_present (fb : Js.object) (k : string) (mk : Js.object -> Where) :
  In (k, mk) recognised -> Js.truthy (Js.get k fb) = true ->
  In (mk fb) (clauses fb).
Proof.
  intros Hin Ht. unfold clauses, present.
  apply (in_map (fun p => snd p fb) _ (k, mk)).
  apply filter_In. now split.
Qed.

(** One clause that cannot be run fails the whole query. *)
Lemma compile_wheres_None (ws : list Where) (w : Where) :
  In w ws -> compile_where w = None -> compile_wheres ws = None.
Proof.
  induction ws as [| w' ws IH]; intros Hin Hw; [contradiction |].
  destruct Hin as [-> | Hin]; cbn [compile_wheres].
  - now rewrite Hw.
  - rewrite (IH Hin Hw). now destruct (compile_where w').
Qed.

(** The clauses are read from the five recognised properties only. *)
Lemma clauses_ext (fb fb' : Js.object) :
  (forall k, In k ["location"; "title"; "date"; "q"] ->
     Js.get k fb = Js.get k fb') ->
  Js.truthy (Js.get "rsvpEndDate" fb) = Js.truthy (Js.get "rsvpEndDate" fb') ->
  clauses fb = clauses fb'.
Proof.
  intros H Hr. unfold clauses, present, recognised. cbn [filter fst snd].
  rewrite Hr.
  rewrite (H "location"), (H "title"), (H "date"), (H "q") by (cbn; tauto).
  destruct (Js.truthy (Js.get "location" fb'));
    destruct (Js.truthy (Js.get "title" fb'));
    destruct (Js.truthy (Js.get "date" fb'));
    destruct (Js.truthy (Js.get "rsvpEndDate" fb'));
    destruct (Js.truthy (Js.get "q" fb'));
    cbn [map snd];
    now rewrite ?(H "location"), ?(H "title"), ?(H "date"), ?(H "q")
      by (cbn; tauto).
Qed.

(** X1: With title, rsvpEndDate and q absent or empty, [filterEvents] resolves
    to the rows that match the location, when one is given, and the date,
    when one is given, in storage order: the conditions are ANDed, and a
    property that is absent or empty puts no condition. *)
Theorem filterEvents_location_and_date (fb : Js.object) (db : Store) :
  Js.truthy (Js.get "title" fb) = false ->
  Js.truthy (Js.get "rsvpEndDate" fb) = false ->
  Js.truthy (Js.get "q" fb) = false ->
  filterEvents fb db =
  (Ok (JArray (filter (fun r => wants "location" fb r && wants "date" fb r) db)),
   db).
Proof.
  intros Ht Hr Hq.
  assert (Hp : exists p,
             compile_wheres (clauses fb) = Some p
             /\ forall r, p r = wants "location" fb r && wants "date" fb r).
  { unfold clauses, present, recognised, wants. cbn [filter fst snd].
    rewrite Ht, Hr, Hq.
    destruct (Js.get "location" fb) as [l |] eqn:El; cbn [Js.truthy];
      [destruct (String.eqb l "") |]; cbn [negb];
      (destruct (Js.get "date" fb) as [d |] eqn:Ed; cbn [Js.truthy];
       [destruct (String.eqb d "") |]; cbn [negb map snd]);
      rewrite ?El, ?Ed;
      eexists; (split; [reflexivity |]); intros r; cbn;
      rewrite ?andb_true_r; reflexivity. }
  destruct Hp as (p & Hw & Hp).
  rewrite (filterEvents_select fb p db Hq Hw).
  now rewrite (filter_ext _ _ Hp).
Qed.

(** X2: A filter body with a non-empty title is rejected, whatever else it
    holds and whatever the table holds: the clause the composer adds for
    it names no column. *)
Theorem filterEvents_title_rejected (fb : Js.object) (db : Store) :
  Js.truthy (Js.get "title" fb) = true ->
  filterEvents fb db = (Err StorageError, db).
Proof.
  intros Ht. apply filterEvents_rejected.
  apply (compile_wheres_None _ (WhereBasic None (Js.get "title" fb))).
  - apply (clause_present fb "title"
             (fun fb => WhereBasic None (Js.get "title" fb))); [| exact Ht].
    cbn. tauto.
  - reflexivity.
Qed.

(** X3: A filter body with a non-empty rsvpEndDate and no date is rejected,
    whatever else it holds. *)
Theorem filterEvents_rsvpEndDate_without_date (fb : Js.object) (db : Store) :
  Js.truthy (Js.get "rsvpEndDate" fb) = true ->
  Js.get "date" fb = None ->
  filterEvents fb db = (Err StorageError, db).
Proof.
  intros Hr Hd. apply filterEvents_rejected.
  apply (compile_wheres_None _ (WhereBasic (Some "rsvpEndDate") None)).
  - rewrite <- Hd.
    apply (clause_present fb "rsvpEndDate"
             (fun fb => WhereBasic (Some "rsvpEndDate") (Js.get "date" fb)));
      [| exact Hr].
    cbn. tauto.
  - reflexivity.
Qed.

(** X4: The result of [filterEvents] depends on the rsvpEndDate property only
    through its being there: two filter bodies that agree on location,
    title, date and q, and both hold (or both lack) a non-empty
    rsvpEndDate, give the same result, whatever the two rsvpEndDate values
    are. *)
Theorem filterEvents_ignores_rsvpEndDate_value (fb fb' : Js.object) (db : Store) :
  (forall k, In k ["location"; "title"; "date"; "q"] ->
     Js.get k fb = Js.get k fb') ->
  Js.truthy (Js.get "rsvpEndDate" fb) = Js.truthy (Js.get "rsvpEndDate" fb') ->
  filterEvents fb db = filterEvents fb' db.
Proof.
  intros H Hr. rewrite !filterEvents_await. now rewrite (clauses_ext fb fb' H Hr).
Qed.

(** X5: A filter body in which none of location, title, date, rsvpEndDate and
    q holds a non-empty string selects every row: empty strings count as
    absent, and the other properties a filter body may carry (tittle,
    description, time, createdBy, the date ranges) are not looked at. *)
Theorem filterEvents_nothing_recognised (fb : Js.object) (db : Store) :
  (forall k, In k (map fst recognised) -> Js.truthy (Js.get k fb) = false) ->
  filterEvents fb db = (Ok (JArray db), db).
Proof.
  intros H.
  rewrite (filterEvents_select fb (fun _ => true)).
  - now rewrite filter_all.
  - apply H. cbn. tauto.
  - unfold clauses, present, recognised. cbn [filter fst].
    now rewrite (H "location"), (H "title"), (H "date"), (H "rsvpEndDate"),
      (H "q") by (cbn; tauto).
Qed.


(** *** More on lookup, deletion, update and creation *)

Lemma filter_true_on {A : Type} (p : A -> bool) (l : list A) :
  (forall a, In a l -> p a = true) -> filter p l = l.
Proof.
  induction l as [| a l IH]; simpl; intros H; [reflexivity |].
  rewrite (H a (or_introl eq_refl)). f_equal. apply IH.
  intros b Hb. apply H. now right.
Qed.

Lemma filter_implied {A : Type} (q r : A -> bool) (l : list A) :
  (forall a, q a = true -> r a = true) ->
  filter q (filter r l) = filter q l.
Proof.
  intros H. induction l as [| a l IH]; simpl; [reflexivity |].
  destruct (r a) eqn:Er; simpl.
  - now rewrite IH.
  - destruct (q a) eqn:Eq; [| exact IH].
    rewrite (H a Eq) in Er. discriminate.
Qed.

Lemma filter_swap {A : Type} (p q : A -> bool) (l : list A) :
  filter p (filter q l) = filter q (filter p l).
Proof.
  induction l as [| a l IH]; simpl; [reflexivity |].
  destruct (q a) eqn:Eq, (p a) eqn:Ep; simpl; rewrite ?Eq, ?Ep, IH;
    reflexivity.
Qed.

Lemma filter_map_swap {A : Type} (q : A -> bool) (g : A -> A) (l : list A) :
  (forall a, q (g a) = q a) -> filter q (map g l) = map g (filter q l).
Proof.
  intros H. induction l as [| a l IH]; simpl; [reflexivity |].
  rewrite H. destruct (q a); simpl; now rewrite IH.
Qed.

Lemma map_fixed {A : Type} (g : A -> A) (l : list A) :
  (forall a, In a l -> g a = a) -> map g l = l.
Proof.
  induction l as [| a l IH]; simpl; intros H; [reflexivity |].
  rewrite (H a (or_introl eq_refl)). f_equal. apply IH.
  intros b Hb. apply H. now right.
Qed.

Lemma head_filter_find {A : Type} (p : A -> bool) (l : list A) :
  find p l = match filter p l with a :: _ => Some a | [] => None end.
Proof.
  induction l as [| a l IH]; simpl; [reflexivity |]. now destruct (p a).
Qed.

Lemma firstn_add {A : Type} (n m : nat) (l : list A) :
  firstn (n + m) l = firstn n l ++ firstn m (skipn n l).
Proof.
  revert l. induction n as [| n IH]; intros l; [reflexivity |].
  destruct l as [| a l]; simpl.
  - now rewrite firstn_nil.
  - now rewrite IH.
Qed.

Lemma skipn_add {A : Type} (n m : nat) (l : list A) :
  skipn (n + m) l = skipn m (skipn n l).
Proof.
  revert l. induction n as [| n IH]; intros l; [reflexivity |].
  destruct l as [| a l]; simpl.
  - now rewrite skipn_nil.
  - apply IH.
Qed.

Lemma other_ids (eventId : string) (db : Store) :
  ~ In eventId (map id db) ->
  forall r, In r db -> String.eqb (id r) eventId = false.
Proof.
  intros Hid r Hr. apply String.eqb_neq. intros E. apply Hid.
  rewrite <- E. now apply in_map.
Qed.

Lemma column_equals_column (c v : string) (r : RawEventBody) :
  column_equals c v r = true <-> column c r = Some v.
Proof.
  unfold column_equals. destruct (column c r) as [x |].
  - rewrite String.eqb_eq. split; congruence.
  - split; discriminate.
Qed.

Lemma or_old_twice (new : option string) (old : string) :
  or_old new (or_old new old) = or_old new old.
Proof. now destruct new. Qed.

Lemma apply_update_twice (u : UpdateEventBody) (r : RawEventBody) :
  apply_update u (apply_update u r) = apply_update u r.
Proof.
  unfold apply_update.
  cbn [id event tittle slug description location date time rsvpEndDate
       createdBy].
  now rewrite !or_old_twice.
Qed.

(** X7: [getEvent] resolves to the first row, in storage order, whose lookup
    column holds the value, or to [undefined] when there is none; a row it
    resolves to is a row of the table with that value in the column. *)
Theorem getEvent_first_match (k : EventLookUpKey) (v : string) (db : Store) :
  getEvent k v db =
    (Ok (match find (column_equals (lookup_key_value k) v) db with
         | Some r => JRow r
         | None => JUndefined
         end), db)
  /\ (forall r, fst (getEvent k v db) = Ok (JRow r) ->
        In r db /\ column (lookup_key_value k) r = Some v).
Proof.
  assert (E : getEvent k v db =
    (Ok (match find (column_equals (lookup_key_value k) v) db with
         | Some r => JRow r
         | None => JUndefined
         end), db)).
  { rewrite getEvent_await, head_filter_find.
    now destruct (filter (column_equals (lookup_key_value k) v) db). }
  split; [exact E |].
  intros r. rewrite E. cbn [fst].
  destruct (find (column_equals (lookup_key_value k) v) db) as [r' |] eqn:F;
    [| discriminate].
  intros [= <-]. apply find_some in F. destruct F as [Hin Hc].
  split; [exact Hin |]. now apply column_equals_column.
Qed.

(** X8: [delete] of an id no row has resolves and leaves the table as it is. *)
Theorem delete_missing_id (eventId : string) (db : Store) :
  ~ In eventId (map id db) ->
  delete eventId db = (Ok tt, db).
Proof.
  intros Hid. rewrite delete_store. f_equal.
  apply filter_true_on. intros r Hr.
  change (column_equals "id" eventId r) with (String.eqb (id r) eventId).
  now rewrite (other_ids eventId db Hid r Hr).
Qed.

(** X9: [delete] always resolves; afterwards the table holds exactly the rows
    it held before whose id is another, every row with the id is gone,
    and the rows that stay keep their order. *)
Theorem delete_removes_exactly (eventId : string) (db : Store) :
  fst (delete eventId db) = Ok tt
  /\ (forall x, In x (snd (delete eventId db)) <->
                In x db /\ id x <> eventId)
  /\ snd (delete eventId db) =
     filter (fun x => negb (String.eqb (id x) eventId)) db.
Proof.
  rewrite delete_store. cbn [fst snd].
  change (fun r => negb (column_equals "id" eventId r))
    with (fun x => negb (String.eqb (id x) eventId)).
  split; [reflexivity |]. split; [| reflexivity].
  intros x. rewrite filter_In, negb_true_iff, String.eqb_neq. tauto.
Qed.

(** X10: Deleting twice is deleting once, and two deletions can be done in
    either order. *)
Theorem delete_idempotent_commutes (a b : string) (db : Store) :
  snd (delete a (snd (delete a db))) = snd (delete a db)
  /\ snd (delete a (snd (delete b db))) = snd (delete b (snd (delete a db))).
Proof.
  rewrite !delete_store. cbn [snd].
  split.
  - now apply filter_implied.
  - apply filter_swap.
Qed.

(** X11: [update] with a body that sets at least one property, of an id no
    row has, resolves to [undefined], without an error, and leaves the
    table as it is. *)
Theorem update_missing_id
  (updateBody : UpdateEventBody) (eventId : string) (db : Store) :
  is_empty_update updateBody = false ->
  ~ In eventId (map id db) ->
  update updateBody eventId db = (Ok JUndefined, db).
Proof.
  intros Hbody Hid. rewrite (update_store _ _ _ Hbody).
  rewrite (filter_none _ db) by (apply other_ids; exact Hid).
  cbn [map index0]. f_equal.
  apply map_fixed. intros r Hr. now rewrite (other_ids eventId db Hid r Hr).
Qed.

(** X12: [update] neither adds nor removes a row and changes no id: the ids of
    the table are the same, in the same order, before and after. *)
Theorem update_preserves_ids
  (updateBody : UpdateEventBody) (eventId : string) (db : Store) :
  map id (snd (update updateBody eventId db)) = map id db
  /\ length (snd (update updateBody eventId db)) = length db.
Proof.
  destruct (is_empty_update updateBody) eqn:Hbody.
  { rewrite (update_empty _ _ _ Hbody). now split. }
  rewrite (update_store _ _ _ Hbody). cbn [snd]. split.
  - rewrite map_map. apply map_ext. intros x.
    now destruct (String.eqb (id x) eventId).
  - apply length_map.
Qed.

(** X13: Applying the same update to the same id a second time changes
    nothing and resolves to the same row. *)
Theorem update_idempotent
  (updateBody : UpdateEventBody) (eventId : string) (db : Store) :
  update updateBody eventId (snd (update updateBody eventId db)) =
  update updateBody eventId db.
Proof.
  destruct (is_empty_update updateBody) eqn:Hbody.
  { now rewrite !(update_empty _ _ _ Hbody). }
  rewrite !update_store by exact Hbody. cbn [snd].
  rewrite (filter_update_in_place (fun x => String.eqb (id x) eventId))
    by reflexivity.
  rewrite !map_map. f_equal.
  - do 3 f_equal. apply map_ext. intros x. apply apply_update_twice.
  - apply map_ext. intros x.
    destruct (String.eqb (id x) eventId) eqn:E.
    + cbn [id apply_update]. rewrite E. apply apply_update_twice.
    + now rewrite E.
Qed.

(** X14: Updating or deleting one id does not change what the lookup of
    another id gives. *)
Theorem writes_keep_other_lookups
  (updateBody : UpdateEventBody) (eventId v : string) (db : Store) :
  v <> eventId ->
  fst (getEvent ID v (snd (update updateBody eventId db))) =
    fst (getEvent ID v db)
  /\ fst (getEvent ID v (snd (delete eventId db))) = fst (getEvent ID v db).
Proof.
  intros Hne. rewrite delete_store, !getEvent_await.
  cbn [fst snd]. change (lookup_key_value ID) with "id".
  change (column_equals "id" v) with (fun x => String.eqb (id x) v).
  change (fun r => negb (column_equals "id" eventId r))
    with (fun x => negb (String.eqb (id x) eventId)).
  split.
  - destruct (is_empty_update updateBody) eqn:Hbody;
      [now rewrite (update_empty _ _ _ Hbody) |].
    rewrite (update_store _ _ _ Hbody). cbn [snd].
    rewrite filter_map_swap
      by (intros x; now destruct (String.eqb (id x) eventId)).
    rewrite map_fixed; [reflexivity |].
    intros x Hx. apply filter_In in Hx. destruct Hx as [_ Hx].
    apply String.eqb_eq in Hx.
    destruct (String.eqb_spec (id x) eventId); [congruence | reflexivity].
  - rewrite filter_implied; [reflexivity |].
    intros x Hx. apply String.eqb_eq in Hx. apply negb_true_iff.
    apply String.eqb_neq. congruence.
Qed.

(** X15: When the storage gives the new row an id that no row has, deleting
    the row [create] resolved to puts the table back as it was. *)
Theorem create_then_delete (eventBody : EventBody) (db : Store) :
  ~ In (fresh_id db) (map id db) ->
  delete (fresh_id db) (snd (create eventBody db)) = (Ok tt, db).
Proof.
  intros Hfresh. rewrite create_await, delete_store. cbn [snd]. f_equal.
  change (fun r => negb (column_equals "id" (fresh_id db) r))
    with (fun x => negb (String.eqb (id x) (fresh_id db))).
  rewrite filter_app. cbn [filter id]. rewrite String.eqb_refl. cbn [negb].
  rewrite app_nil_r. apply filter_true_on. intros r Hr.
  now rewrite (other_ids _ db Hfresh r Hr).
Qed.

(** X16: A lookup that finds a row keeps finding that row after a [create]:
    the new row goes to the end of the table and never shadows an older
    one, also when it carries the same slug. *)
Theorem create_keeps_existing_lookups
  (eventBody : EventBody) (k : EventLookUpKey) (v : string) (db : Store)
  (r : RawEventBody) :
  fst (getEvent k v db) = Ok (JRow r) ->
  fst (getEvent k v (snd (create eventBody db))) = Ok (JRow r).
Proof.
  rewrite create_await, !getEvent_await. cbn [fst snd]. rewrite filter_app.
  destruct (filter (column_equals (lookup_key_value k) v) db); [discriminate |].
  now intros [= <-].
Qed.

(** X17: Two pages that follow each other make up the page of their joint
    size: no row is skipped and none comes twice. *)
Theorem getAll_pages_tile
  (offset_ n m : nat) (db : Store) (p1 p2 : list RawEventBody) :
  getAll offset_ n db = (Ok (JArray p1), db) ->
  getAll (offset_ + n) m db = (Ok (JArray p2), db) ->
  getAll offset_ (n + m) db = (Ok (JArray (p1 ++ p2)), db).
Proof.
  rewrite !getAll_await, firstn_add, skipn_add.
  destruct (firstn n (skipn offset_ db)) as [| a p] eqn:E1; [discriminate |].
  intros [= <-].
  destruct (firstn m (skipn n (skipn offset_ db))); [discriminate |].
  now intros [= <-].
Qed.

(** X18: On a table that is not empty, the page from the start that is at
    least as long as the table is what the empty filter gives. *)
Theorem getAll_whole_table (limit_ : nat) (db : Store) :
  db <> [] -> length db <= limit_ ->
  getAll 0 limit_ db = filterEvents [] db.
Proof.
  intros Hne Hlen. rewrite getAll_await.
  rewrite (filterEvents_select [] (fun _ => true)) by reflexivity.
  rewrite filter_all. cbn [skipn]. rewrite firstn_all2 by exact Hlen.
  destruct db; [congruence | reflexivity].
Qed.

End Resource.

(** *** The properties at concrete tables *)

(** A storage that numbers its rows in unary. *)
Fixpoint tally (n : nat) : string :=
  match n with
  | 0 => ""
  | S n' => String.append "1" (tally n')
  end.

Definition serial_id (db : Store) : string := tally (S (length db)).

(** A database without text search: every raw condition is rejected. *)
Definition no_raw_sql (sql : string) (bindings : list string)
  : option (RawEventBody -> bool) := None.

Definition no_statements (sql : string) (bindings : list string) (db : Store)
  : Store := db.

Definition meetup : EventBody :=
  mkEventBody "Meetup" "meetup" "monthly meetup" "NY" "2030-01-10" "18:00"
              "2030-01-05" "7".

Definition summit : EventBody :=
  mkEventBody "Summit" "summit" "yearly summit" "LA" "2030-03-01" "09:00"
              "2030-02-20" "8".

Definition two_events : Store := [mkRaw "1" meetup; mkRaw "11" summit].

Definition move_to_SF : UpdateEventBody :=
  mkUpdate None None None (Some "SF") None None None None.

Lemma composer_fixed_order_witness :
  getQueryBuilderFunctions [("location", "NY"); ("q", "jazz")] =
  getQueryBuilderFunctions [("q", "jazz"); ("location", "NY")].
Proof.
  apply (composer_fixed_order [("q", "jazz"); ("location", "NY")]
                              (knexInstance EVENTS_TABLE)).
  - repeat constructor; simpl; intuition discriminate.
  - apply perm_swap.
Defined.

Lemma rsvpEndDate_filter_uses_date_witness :
  Js.truthy (Js.get "rsvpEndDate" [("rsvpEndDate", "2030-01-05")]) = true
  /\ In (WhereBasic (Some "rsvpEndDate") None)
        (q_where (pipe (getQueryBuilderFunctions [("rsvpEndDate", "2030-01-05")])
                       (knexInstance EVENTS_TABLE))).
Proof.
  split; [reflexivity |].
  apply (rsvpEndDate_filter_uses_date [("rsvpEndDate", "2030-01-05")]);
    reflexivity.
Defined.

Lemma getAll_page_witness :
  length two_events <= 2
  /\ getAll serial_id no_raw_sql no_statements 2 5 two_events = (Err no_events, two_events).
Proof.
  split; [simpl; lia |].
  apply (getAll_page serial_id no_raw_sql no_statements 2 5 two_events). simpl; lia.
Defined.

Lemma create_then_getEvent_witness :
  ~ In (serial_id two_events) (map id two_events)
  /\ exists r,
       create serial_id no_raw_sql no_statements meetup two_events =
         (Ok (JRow r), two_events ++ [r])
       /\ event r = meetup
       /\ id r = serial_id two_events
       /\ getEvent serial_id no_raw_sql no_statements ID (id r) (two_events ++ [r]) =
            (Ok (JRow r), two_events ++ [r]).
Proof.
  assert (H : ~ In (serial_id two_events) (map id two_events)).
  { simpl. intros [H | [H | []]]; discriminate. }
  split; [exact H |].
  apply (create_then_getEvent serial_id no_raw_sql no_statements meetup two_events H).
Defined.

Lemma update_then_getEvent_witness :
  is_empty_update move_to_SF = false
  /\ find (fun x => String.eqb (id x) "11") two_events = Some (mkRaw "11" summit)
  /\ update serial_id no_raw_sql no_statements move_to_SF "11" two_events =
       (Ok (JRow (apply_update move_to_SF (mkRaw "11" summit))),
        [mkRaw "1" meetup; apply_update move_to_SF (mkRaw "11" summit)]).
Proof.
  split; [reflexivity |]. split; [reflexivity |].
  apply (update_then_getEvent serial_id no_raw_sql no_statements move_to_SF
           "11" two_events (mkRaw "11" summit)); reflexivity.
Defined.

(** A third event, on the date and at the place of the first. *)
Definition workshop : EventBody :=
  mkEventBody "Workshop" "workshop" "hands on" "NY" "2030-01-10" "10:00"
              "2030-01-08" "7".

Definition three_events : Store :=
  [mkRaw "1" meetup; mkRaw "11" summit; mkRaw "111" workshop].

Lemma filterEvents_location_and_date_witness :
  filterEvents serial_id no_raw_sql no_statements
    [("location", "NY"); ("date", "2030-01-10"); ("time", "18:00"); ("q", "")]
    three_events =
  (Ok (JArray [mkRaw "1" meetup; mkRaw "111" workshop]), three_events).
Proof.
  apply (filterEvents_location_and_date serial_id no_raw_sql no_statements
           [("location", "NY"); ("date", "2030-01-10"); ("time", "18:00");
            ("q", "")] three_events); reflexivity.
Defined.

Lemma filterEvents_title_rejected_witness :
  filterEvents serial_id no_raw_sql no_statements
    [("location", "NY"); ("title", "Meetup")] three_events =
  (Err StorageError, three_events).
Proof.
  apply (filterEvents_title_rejected serial_id no_raw_sql no_statements). reflexivity.
Defined.

Lemma filterEvents_rsvpEndDate_without_date_witness :
  filterEvents serial_id no_raw_sql no_statements
    [("location", "NY"); ("rsvpEndDate", "2030-01-05")] three_events =
  (Err StorageError, three_events).
Proof.
  apply (filterEvents_rsvpEndDate_without_date serial_id no_raw_sql no_statements);
    reflexivity.
Defined.

Lemma filterEvents_ignores_rsvpEndDate_value_witness :
  filterEvents serial_id no_raw_sql no_statements
    [("rsvpEndDate", "2030-01-05"); ("date", "2030-01-10")] three_events =
  filterEvents serial_id no_raw_sql no_statements
    [("date", "2030-01-10"); ("rsvpEndDate", "1999-12-31")] three_events.
Proof.
  apply (filterEvents_ignores_rsvpEndDate_value serial_id no_raw_sql no_statements).
  - intros k Hk. cbn in Hk.
    repeat (destruct Hk as [<- | Hk]; [reflexivity |]). contradiction.
  - reflexivity.
Defined.

Lemma filterEvents_nothing_recognised_witness :
  filterEvents serial_id no_raw_sql no_statements
    [("tittle", "Meetup"); ("location", ""); ("createdBy", "7")] three_events =
  (Ok (JArray three_events), three_events).
Proof.
  apply (filterEvents_nothing_recognised serial_id no_raw_sql no_statements).
  intros k Hk. cbn in Hk.
  repeat (destruct Hk as [<- | Hk]; [reflexivity |]). contradiction.
Defined.

Lemma delete_missing_id_witness :
  delete serial_id no_raw_sql no_statements "1111" three_events = (Ok tt, three_events).
Proof.
  apply (delete_missing_id serial_id no_raw_sql no_statements "1111" three_events).
  cbn. intros [H | [H | [H | []]]]; discriminate.
Defined.

Lemma update_missing_id_witness :
  update serial_id no_raw_sql no_statements move_to_SF "1111" three_events =
  (Ok JUndefined, three_events).
Proof.
  apply (update_missing_id serial_id no_raw_sql no_statements move_to_SF
           "1111" three_events).
  - reflexivity.
  - cbn. intros [H | [H | [H | []]]]; discriminate.
Defined.

Lemma writes_keep_other_lookups_witness :
  fst (getEvent serial_id no_raw_sql no_statements ID "1"
         (snd (update serial_id no_raw_sql no_statements move_to_SF "11" three_events))) =
    fst (getEvent serial_id no_raw_sql no_statements ID "1" three_events)
  /\ fst (getEvent serial_id no_raw_sql no_statements ID "1"
            (snd (delete serial_id no_raw_sql no_statements "11" three_events))) =
       fst (getEvent serial_id no_raw_sql no_statements ID "1" three_events).
Proof.
  apply (writes_keep_other_lookups serial_id no_raw_sql no_statements move_to_SF "11" "1"
           three_events).
  discriminate.
Defined.

Lemma create_then_delete_witness :
  delete serial_id no_raw_sql no_statements (serial_id three_events)
    (snd (create serial_id no_raw_sql no_statements summit three_events)) =
  (Ok tt, three_events).
Proof.
  apply (create_then_delete serial_id no_raw_sql no_statements summit three_events).
  cbn. intros [H | [H | [H | []]]]; discriminate.
Defined.

Lemma create_keeps_existing_lookups_witness :
  fst (getEvent serial_id no_raw_sql no_statements SLUG "summit"
         (snd (create serial_id no_raw_sql no_statements summit three_events))) =
  Ok (JRow (mkRaw "11" summit)).
Proof.
  apply (create_keeps_existing_lookups serial_id no_raw_sql no_statements summit SLUG
           "summit" three_events (mkRaw "11" summit)).
  reflexivity.
Defined.

Lemma getAll_pages_tile_witness :
  getAll serial_id no_raw_sql no_statements 0 (1 + 2) three_events =
  (Ok (JArray ([mkRaw "1" meetup] ++ [mkRaw "11" summit; mkRaw "111" workshop])),
   three_events).
Proof.
  apply (getAll_pages_tile serial_id no_raw_sql no_statements 0 1 2 three_events);
    reflexivity.
Defined.

Lemma getAll_whole_table_witness :
  getAll serial_id no_raw_sql no_statements 0 10 three_events =
  filterEvents serial_id no_raw_sql no_statements [] three_events.
Proof.
  apply (getAll_whole_table serial_id no_raw_sql no_statements 10 three_events).
  - discriminate.
  - cbn. lia.
Defined.

(** An update body with no property set. *)
Definition empty_update : UpdateEventBody :=
  mkUpdate None None None None None None None None.

(** C7 as first stated fails on the empty body: the id matches a row, and
    [update] rejects instead of resolving to the row. *)
Lemma update_empty_body_rejected :
  find (fun x => String.eqb (id x) "11") two_events = Some (mkRaw "11" summit)
  /\ update serial_id no_raw_sql no_statements empty_update "11" two_events =
       (Err StorageError, two_events).
Proof. split; reflexivity. Qed.

(** A database that takes every raw text, and a text that closes the
    search condition and empties the table. *)
Definition any_raw_sql (sql : string) (bindings : list string)
  : option (RawEventBody -> bool) := Some (fun _ => true).

Definition drop_rows : string := "x'); delete from events; --".

Definition runs_delete (sql : string) (bindings : list string) (db : Store)
  : Store :=
  if String.eqb sql ("document @@ to_tsquery('" ++ drop_rows ++ "')")
  then [] else db.

(** With such a search text [filterEvents] resolves and the table is
    changed. *)
Example filterEvents_search_text_writes :
  filterEvents serial_id any_raw_sql runs_delete [("q", drop_rows)] two_events =
  (Ok (JArray two_events), []).
Proof. reflexivity. Qed.

End Events.

(* ================================================================== *)
(** ** The attendees of an event (events.resource, [getAttendees]) *)

Module Attendees.

Section Join.

(** The query names three columns: [rsvps.account_id], [rsvps.event_id]
    and [accounts.id].  What else a row of either table holds is carried
    along as it is. *)
Variables RsvpColumns AccountColumns : Type.

Record Rsvp := mkRsvp {
  account_id : string;
  event_id : string;
  rsvp_columns : RsvpColumns
}.

Record Account := mkAccount {
  id : string;
  account_columns : AccountColumns
}.

Record Tables := mkTables {
  rsvps : list Rsvp;
  accounts : list Account
}.

(** A row of the join: the columns of an rsvp with the columns of the
    account it belongs to. *)
Definition Attendee : Type := Rsvp * Account.

(** [rsvps INNER JOIN accounts ON accounts.id = rsvps.account_id] *)
Definition innerJoin (rs : list Rsvp) (acs : list Account) : list Attendee :=
  flat_map
    (fun rv =>
       map (pair rv)
           (filter (fun a => String.eqb (id a) (account_id rv)) acs))
    rs.

(** [select('*') ... where('rsvps.event_id', eventId)]: the rows are
    returned as the query gives them; there is no check on the result. *)
Definition getAttendees (eventId : string) (db : Tables) : list Attendee :=
  filter (fun ra => String.eqb (event_id (fst ra)) eventId)
         (innerJoin (rsvps db) (accounts db)).

Lemma filter_absent {A : Type} (p : A -> bool) (l : list A) :
  (forall a, In a l -> p a = false) -> filter p l = [].
Proof.
  induction l as [| a l IH]; simpl; intros H; [reflexivity |].
  rewrite (H a (or_introl eq_refl)). apply IH. intros b Hb. apply H. now right.
Qed.

(** With distinct account ids, an id selects the one account that has it. *)
Lemma the_account (acs : list Account) (a : Account) :
  NoDup (map id acs) -> In a acs ->
  filter (fun x => String.eqb (id x) (id a)) acs = [a].
Proof.
  induction acs as [| a0 acs IH]; intros Hnd Hin; [contradiction |].
  cbn [map] in Hnd. inversion Hnd as [| ? ? Hnotin Hnd']; subst.
  cbn [filter]. destruct Hin as [-> | Hin].
  - rewrite String.eqb_refl. f_equal. apply filter_absent.
    intros b Hb. apply String.eqb_neq. intros E. apply Hnotin.
    rewrite <- E. now apply in_map.
  - destruct (String.eqb_spec (id a0) (id a)) as [E | _].
    + exfalso. apply Hnotin. rewrite E. now apply in_map.
    + now apply IH.
Qed.

(** X19: The attendees are exactly the pairs of an rsvp for the event with the
    account of that rsvp: an rsvp for another event never appears, nor
    one whose account is not in [accounts]; and for an event without
    rsvps, known or not, the result is the empty list. *)
Theorem getAttendees_exactly (eventId : string) (db : Tables) :
  (forall rv a,
     In (rv, a) (getAttendees eventId db) <->
     In rv (rsvps db) /\ In a (accounts db)
     /\ id a = account_id rv /\ event_id rv = eventId)
  /\ ((forall rv, In rv (rsvps db) -> event_id rv <> eventId) ->
      getAttendees eventId db = []).
Proof.
  assert (H : forall rv a,
     In (rv, a) (getAttendees eventId db) <->
     In rv (rsvps db) /\ In a (accounts db)
     /\ id a = account_id rv /\ event_id rv = eventId).
  { intros rv a. unfold getAttendees, innerJoin.
    rewrite filter_In, in_flat_map. cbn [fst]. rewrite String.eqb_eq.
    split.
    - intros [(rv' & Hrv & Hpair) Hev].
      apply in_map_iff in Hpair. destruct Hpair as (a' & [= -> ->] & Ha).
      apply filter_In in Ha. destruct Ha as [Ha Hid].
      apply String.eqb_eq in Hid. tauto.
    - intros (Hrv & Ha & Hid & Hev). split; [| exact Hev].
      exists rv. split; [exact Hrv |].
      apply in_map. apply filter_In. split; [exact Ha |].
      now apply String.eqb_eq. }
  split; [exact H |].
  intros Hnone.
  destruct (getAttendees eventId db) as [| [rv a] l] eqn:E; [reflexivity |].
  exfalso. apply (Hnone rv).
  - apply (H rv a). now left.
  - apply (H rv a). now left.
Qed.

(** X20: When account ids are distinct and every rsvp names an account that is
    there, each rsvp for the event gives one attendee: the rsvps of the
    attendees are the rsvps for the event, in the order of the table. *)
Theorem getAttendees_one_per_rsvp (eventId : string) (db : Tables) :
  NoDup (map id (accounts db)) ->
  (forall rv, In rv (rsvps db) ->
     exists a, In a (accounts db) /\ id a = account_id rv) ->
  map fst (getAttendees eventId db) =
  filter (fun rv => String.eqb (event_id rv) eventId) (rsvps db).
Proof.
  destruct db as [rs acs]. cbn [rsvps accounts]. intros Hnd Href.
  unfold getAttendees, innerJoin. cbn [rsvps accounts].
  induction rs as [| rv rs IH]; [reflexivity |].
  cbn [flat_map filter]. rewrite filter_app, map_app.
  rewrite IH by (intros rv' Hrv'; apply Href; now right).
  destruct (Href rv (or_introl eq_refl)) as (a & Ha & Hid).
  rewrite <- Hid, (the_account acs a Hnd Ha). cbn [map filter fst].
  now destruct (String.eqb (event_id rv) eventId).
Qed.

End Join.

(** *** The properties at concrete tables *)

Definition guests : Tables string string :=
  mkTables _ _
    [ mkRsvp _ "a1" "1" "going"; mkRsvp _ "a2" "11" "going";
      mkRsvp _ "a2" "1" "maybe" ]
    [ mkAccount _ "a1" "ann@example.org"; mkAccount _ "a2" "bob@example.org" ].

Lemma getAttendees_one_per_rsvp_witness :
  map fst (getAttendees _ _ "1" guests) =
  [ mkRsvp _ "a1" "1" "going"; mkRsvp _ "a2" "1" "maybe" ].
Proof.
  apply (getAttendees_one_per_rsvp _ _ "1" guests).
  - repeat constructor; cbn; intuition discriminate.
  - intros rv Hrv. cbn in Hrv.
    destruct Hrv as [<- | [<- | [<- | []]]]; cbn; eauto.
Defined.

End Attendees.

(* ================================================================== *)
(** ** The configuration loader (config/index.ts) *)

Module Config.

(** What loading gives: the configuration, or the message of the error
    that aborts the start. *)
Inductive Loaded (A : Type) :=
| Valid (a : A)
| Failure (message : string).
Arguments Valid {A} a.
Arguments Failure {A} message.

Definition and_then {A B : Type} (m : Loaded A) (k : A -> Loaded B) : Loaded B :=
  match m with
  | Valid a => k a
  | Failure message => Failure message
  end.

Notation "x <- m ;; k" := (and_then m (fun x => k))
  (at level 61, m at next level, right associativity).

(** The validated environment. *)
Record EnvVars := mkEnvVars {
  NODE_ENV : string;
  PORT : Q;
  DATABASE : string;
  TEST_DB : string;
  DATABASE_DIALECT : string;
  DATABASE_PASSWORD : option string;
  DATABASE_USER : string;
  DATABASE_URL : option string;
  HOST : string
}.

Record AppConfig := mkConfig {
  env : string;
  port : Q;
  dbName : string;
  testDbName : string;
  dbUsername : string;
  dbDialect : string;
  dbPassword : option string;
  databaseUrl : option string;
  host : string
}.

(** The double quote the validator puts around a key. *)
Definition dquote : string := String (ascii_of_nat 34) EmptyString.

Definition quoted (key : string) : string := dquote ++ key ++ dquote.

(** The messages of the validator, by key. *)
Definition fails (key reason : string) : string :=
  "child " ++ quoted key ++ " fails because [" ++ quoted key ++ " " ++ reason
  ++ "]".

Section Schema.

(** The validator's reading of a string as a number; [None] when the
    string does not hold one. *)
Variable to_number : string -> option Q.

(** [joi.string().allow(values).required()]: the key must be there; a
    value on the allow list passes at once, and any other value passes as
    a string, which only the empty string is not. *)
Definition string_allow_required (values : list string) (key : string)
  (processEnv : Js.object) : Loaded string :=
  match Js.get key processEnv with
  | None => Failure (fails key "is required")
  | Some v =>
      if existsb (String.eqb v) values then Valid v
      else if String.eqb v "" then Failure (fails key "is not allowed to be empty")
      else Valid v
  end.

(** [joi.string().required()] *)
Definition string_required (key : string) (processEnv : Js.object)
  : Loaded string :=
  string_allow_required [] key processEnv.

(** [joi.string().default(d)] *)
Definition string_default (d : string) (key : string) (processEnv : Js.object)
  : Loaded string :=
  match Js.get key processEnv with
  | None => Valid d
  | Some v =>
      if String.eqb v "" then Failure (fails key "is not allowed to be empty")
      else Valid v
  end.

(** [joi.string().default(null)] *)
Definition string_default_null (key : string) (processEnv : Js.object)
  : Loaded (option string) :=
  match Js.get key processEnv with
  | None => Valid None
  | Some v =>
      if String.eqb v "" then Failure (fails key "is not allowed to be empty")
      else Valid (Some v)
  end.

(** [joi.number().default(d)] *)
Definition number_default (d : Q) (key : string) (processEnv : Js.object)
  : Loaded Q :=
  match Js.get key processEnv with
  | None => Valid d
  | Some v =>
      match to_number v with
      | Some n => Valid n
      | None => Failure (fails key "must be a number")
      end
  end.

(** [joi.validate(process.env, envVarsSchema)]: the keys in the order of
    the schema, stopping at the first that fails; other keys are let
    through by [unknown()]. *)
Definition envVarsSchema (processEnv : Js.object) : Loaded EnvVars :=
  node_env <- string_allow_required
                ["development"; "production"; "test"; "staging"]
                "NODE_ENV" processEnv ;;
  port_ <- number_default (8080 # 1)%Q "PORT" processEnv ;;
  database <- string_required "DATABASE" processEnv ;;
  test_db <- string_default "events_test_db" "TEST_DB" processEnv ;;
  dialect <- string_default "postgres" "DATABASE_DIALECT" processEnv ;;
  password <- string_default_null "DATABASE_PASSWORD" processEnv ;;
  user <- string_required "DATABASE_USER" processEnv ;;
  url <- string_default_null "DATABASE_URL" processEnv ;;
  host_ <- string_required "HOST" processEnv ;;
  Valid (mkEnvVars node_env port_ database test_db dialect password user url
                   host_).

(** The module body: validate, throw on an error, build the object. *)
Definition config (processEnv : Js.object) : Loaded AppConfig :=
  match envVarsSchema processEnv with
  | Failure message => Failure ("Config validation error: " ++ message)
  | Valid envVars =>
      Valid (mkConfig
               (if Js.truthy (Some (NODE_ENV envVars)) then NODE_ENV envVars
                else "development")
               (PORT envVars)
               (DATABASE envVars)
               (TEST_DB envVars)
               (DATABASE_USER envVars)
               (DATABASE_DIALECT envVars)
               (DATABASE_PASSWORD envVars)
               (DATABASE_URL envVars)
               (HOST envVars))
  end.

(** *** What the loader accepts *)

(** The keys the schema names, in its order. *)
Definition schema_keys : list string :=
  ["NODE_ENV"; "PORT"; "DATABASE"; "TEST_DB"; "DATABASE_DIALECT";
   "DATABASE_PASSWORD"; "DATABASE_USER"; "DATABASE_URL"; "HOST"].

Definition required_keys : list string :=
  ["NODE_ENV"; "DATABASE"; "DATABASE_USER"; "HOST"].

(** An optional string: absent, or there and not empty. *)
Definition optional_string (v : option string) : bool :=
  match v with
  | None => true
  | Some s => negb (String.eqb s "")
  end.

(** An optional number: absent, or there and read as a number. *)
Definition optional_number (v : option string) : bool :=
  match v with
  | None => true
  | Some s => match to_number s with Some _ => true | None => false end
  end.

Definition acceptable (processEnv : Js.object) : bool :=
  forallb (fun k => Js.truthy (Js.get k processEnv)) required_keys
  && optional_number (Js.get "PORT" processEnv)
  && forallb (fun k => optional_string (Js.get k processEnv))
       ["TEST_DB"; "DATABASE_DIALECT"; "DATABASE_PASSWORD"; "DATABASE_URL"].

Definition or_default (d : string) (v : option string) : string :=
  match v with
  | Some s => s
  | None => d
  end.

Lemma string_allow_required_nonempty
  (values : list string) (key : string) (processEnv : Js.object) :
  existsb (String.eqb "") values = false ->
  string_allow_required values key processEnv =
  match Js.get key processEnv with
  | None => Failure (fails key "is required")
  | Some v =>
      if String.eqb v "" then Failure (fails key "is not allowed to be empty")
      else Valid v
  end.
Proof.
  intros Hvalues. unfold string_allow_required.
  destruct (Js.get key processEnv) as [v |]; [| reflexivity].
  destruct (String.eqb_spec v "") as [-> | Hne].
  - now rewrite Hvalues.
  - now destruct (existsb (String.eqb v) values).
Qed.

(** The schema as one chain of tests on the nine keys. *)
Lemma envVarsSchema_unfold (processEnv : Js.object) :
  envVarsSchema processEnv =
  (node_env <- string_required "NODE_ENV" processEnv ;;
   port_ <- number_default (8080 # 1)%Q "PORT" processEnv ;;
   database <- string_required "DATABASE" processEnv ;;
   test_db <- string_default "events_test_db" "TEST_DB" processEnv ;;
   dialect <- string_default "postgres" "DATABASE_DIALECT" processEnv ;;
   password <- string_default_null "DATABASE_PASSWORD" processEnv ;;
   user <- string_required "DATABASE_USER" processEnv ;;
   url <- string_default_null "DATABASE_URL" processEnv ;;
   host_ <- string_required "HOST" processEnv ;;
   Valid (mkEnvVars node_env port_ database test_db dialect password user url
                    host_)).
Proof.
  unfold envVarsSchema, string_required.
  now rewrite !string_allow_required_nonempty by reflexivity.
Qed.

(** The configuration the loader gives for an environment, as a relation:
    what each property of the result is read from. *)
Definition loads (processEnv : Js.object) (c : AppConfig) : Prop :=
  Js.get "NODE_ENV" processEnv = Some (env c) /\ env c <> ""
  /\ match Js.get "PORT" processEnv with
     | None => port c = (8080 # 1)%Q
     | Some v => to_number v = Some (port c)
     end
  /\ Js.get "DATABASE" processEnv = Some (dbName c) /\ dbName c <> ""
  /\ testDbName c = or_default "events_test_db" (Js.get "TEST_DB" processEnv)
  /\ Js.get "TEST_DB" processEnv <> Some ""
  /\ dbDialect c = or_default "postgres" (Js.get "DATABASE_DIALECT" processEnv)
  /\ Js.get "DATABASE_DIALECT" processEnv <> Some ""
  /\ dbPassword c = Js.get "DATABASE_PASSWORD" processEnv
  /\ dbPassword c <> Some ""
  /\ Js.get "DATABASE_USER" processEnv = Some (dbUsername c)
  /\ dbUsername c <> ""
  /\ databaseUrl c = Js.get "DATABASE_URL" processEnv
  /\ databaseUrl c <> Some ""
  /\ Js.get "HOST" processEnv = Some (host c) /\ host c <> "".

(** Closes the branch of a key that fails validation. *)
Ltac key_fails :=
  split;
  [ discriminate
  | let H := fresh in intros H; decompose [and] H; congruence ].

(** Reads the next key of the chain: absent, empty, or a value. *)
Ltac read_key k env :=
  let v := fresh "v" in
  destruct (Js.get k env) as [v |];
  [ destruct (String.eqb_spec v "") as [-> |] | ];
  cbn [and_then or_default]; try key_fails.

Lemma config_loads (processEnv : Js.object) (c : AppConfig) :
  config processEnv = Valid c <-> loads processEnv c.
Proof.
  unfold config. rewrite envVarsSchema_unfold.
  unfold string_required, string_default, string_default_null, number_default.
  rewrite !string_allow_required_nonempty by reflexivity.
  unfold loads.
  read_key "NODE_ENV" processEnv.
  destruct (Js.get "PORT" processEnv) as [p |];
    [destruct (to_number p) as [num |] |]; cbn [and_then]; try key_fails.
  all: read_key "DATABASE" processEnv.
  all: read_key "TEST_DB" processEnv.
  all: read_key "DATABASE_DIALECT" processEnv.
  all: read_key "DATABASE_PASSWORD" processEnv.
  all: read_key "DATABASE_USER" processEnv.
  all: read_key "DATABASE_URL" processEnv.
  all: read_key "HOST" processEnv.
  all: cbn [NODE_ENV PORT DATABASE TEST_DB DATABASE_DIALECT DATABASE_PASSWORD
            DATABASE_USER DATABASE_URL HOST Js.truthy].
  all: match goal with
       | H : ?v <> "" |- context [String.eqb ?v ""] =>
           rewrite (proj2 (String.eqb_neq v "") H)
       end; cbn [negb].
  all: destruct c; cbn [env port dbName testDbName dbUsername dbDialect
                        dbPassword databaseUrl host].
  all: split;
    [ intros [= <- <- <- <- <- <- <- <- <-]; repeat split; congruence
    | let H := fresh in
      intros H; decompose [and] H; f_equal; f_equal; congruence ].
Qed.

(** Whatever stops the loader, the message starts the same way. *)
Lemma config_failure (processEnv : Js.object) (m : string) :
  config processEnv = Failure m ->
  exists message, m = ("Config validation error: " ++ message)%string.
Proof.
  unfold config. destruct (envVarsSchema processEnv) as [e | message].
  - discriminate.
  - intros [= <-]. now exists message.
Qed.

Lemma acceptable_loads (processEnv : Js.object) (c : AppConfig) :
  loads processEnv c -> acceptable processEnv = true.
Proof.
  unfold loads, acceptable, required_keys. intros H. decompose [and] H. clear H.
  cbn [forallb].
  repeat match goal with
         | H : Js.get ?k processEnv = Some ?v, Hne : ?v <> "" |- _ =>
             rewrite H; cbn [Js.truthy];
             rewrite (proj2 (String.eqb_neq v "") Hne); clear H
         end.
  cbn [negb andb].
  destruct (Js.get "PORT" processEnv) as [p |]; cbn [optional_number];
    [match goal with H : to_number p = Some _ |- _ => rewrite H end |].
  all: cbn [andb].
  all: repeat match goal with
              | Hne : Js.get ?k ?e <> Some "" |- _ =>
                  destruct (Js.get k e) as [? |];
                  [ cbn [optional_string];
                    match goal with
                    | |- context [String.eqb ?s ""] =>
                        destruct (String.eqb_spec s "") as [-> |];
                        [ congruence | ]
                    end
                  | ]; clear Hne
              | H : ?x = Js.get ?k ?e, Hne : ?x <> Some "" |- _ =>
                  rewrite H in Hne; clear H
              end.
  all: reflexivity.
Qed.

(** C10, as the code has it: a NODE_ENV outside the four listed values
    passes validation, and the configuration carries it; the defaults for
    the absent PORT, TEST_DB and DATABASE_DIALECT are applied. *)
Theorem config_accepts_unlisted_NODE_ENV :
  config [ ("NODE_ENV", "banana"); ("DATABASE", "events");
           ("DATABASE_USER", "postgres"); ("HOST", "localhost") ] =
  Valid (mkConfig "banana" (8080 # 1)%Q "events" "events_test_db" "postgres"
                  "postgres" None None "localhost").
Proof. reflexivity. Qed.

(** X21: A required key that is missing or empty stops the loader, whatever
    the other keys hold, with a message that starts with
    "Config validation error: ". *)
Theorem config_rejects_missing_required (processEnv : Js.object) (key : string) :
  In key required_keys ->
  Js.truthy (Js.get key processEnv) = false ->
  exists message,
    config processEnv = Failure ("Config validation error: " ++ message)%string.
Proof.
  intros Hkey Hmissing.
  destruct (config processEnv) as [c | m] eqn:E.
  - exfalso. apply config_loads in E. unfold loads in E. decompose [and] E.
    unfold required_keys in Hkey. cbn [In] in Hkey.
    repeat (destruct Hkey as [<- | Hkey];
            [ match goal with
              | H : Js.get _ processEnv = Some ?v, Hne : ?v <> "" |- _ =>
                  rewrite H in Hmissing; cbn [Js.truthy] in Hmissing;
                  rewrite (proj2 (String.eqb_neq v "") Hne) in Hmissing;
                  discriminate
              end | ]).
    contradiction.
  - destruct (config_failure _ _ E) as [message ->]. now exists message.
Qed.

(** X22: The loader succeeds exactly on the environments in which the four
    required keys hold a non-empty string, PORT is absent or a number, and
    each of TEST_DB, DATABASE_DIALECT, DATABASE_PASSWORD and DATABASE_URL
    is absent or non-empty.  No other condition is put on NODE_ENV. *)
Theorem config_succeeds_iff (processEnv : Js.object) :
  (exists c, config processEnv = Valid c) <-> acceptable processEnv = true.
Proof.
  split.
  - intros [c Hc]. apply config_loads in Hc. now apply (acceptable_loads _ c).
  - intros Hacc. destruct (config processEnv) as [c | m] eqn:E.
    + now exists c.
    + exfalso. revert E. unfold config. rewrite envVarsSchema_unfold.
      unfold string_required, string_default, string_default_null,
        number_default.
      rewrite !string_allow_required_nonempty by reflexivity.
      revert Hacc. unfold acceptable, required_keys.
      cbn [forallb]. rewrite !andb_true_iff.
      intros H. decompose [and] H. clear H.
      repeat match goal with
             | H : Js.truthy (Js.get ?k processEnv) = true |- _ =>
                 destruct (Js.get k processEnv) as [? |];
                 [ cbn [Js.truthy] in H;
                   apply negb_true_iff in H; rewrite H; clear H
                 | discriminate H ]
             | H : optional_string (Js.get ?k processEnv) = true |- _ =>
                 destruct (Js.get k processEnv) as [? |];
                 [ cbn [optional_string] in H;
                   apply negb_true_iff in H; rewrite H; clear H
                 | clear H ]
             | H : optional_number (Js.get ?k processEnv) = true |- _ =>
                 destruct (Js.get k processEnv) as [p |];
                 [ cbn [optional_number] in H;
                   destruct (to_number p); [clear H | discriminate H]
                 | clear H ]
             end.
      all: cbn [and_then]; discriminate.
Qed.

(** X23: On success every property of the configuration is read from its key:
    [env] is NODE_ENV as given (the fallback to development is never
    taken), the required keys are carried over, and TEST_DB,
    DATABASE_DIALECT, PORT, DATABASE_PASSWORD and DATABASE_URL take their
    defaults exactly when they are absent. *)
Theorem config_values (processEnv : Js.object) (c : AppConfig) :
  config processEnv = Valid c ->
  Js.get "NODE_ENV" processEnv = Some (env c)
  /\ Js.get "DATABASE" processEnv = Some (dbName c)
  /\ Js.get "DATABASE_USER" processEnv = Some (dbUsername c)
  /\ Js.get "HOST" processEnv = Some (host c)
  /\ testDbName c = or_default "events_test_db" (Js.get "TEST_DB" processEnv)
  /\ dbDialect c = or_default "postgres" (Js.get "DATABASE_DIALECT" processEnv)
  /\ dbPassword c = Js.get "DATABASE_PASSWORD" processEnv
  /\ databaseUrl c = Js.get "DATABASE_URL" processEnv
  /\ (Js.get "PORT" processEnv = None -> port c = (8080 # 1)%Q)
  /\ (forall v, Js.get "PORT" processEnv = Some v -> to_number v = Some (port c)).
Proof.
  intros Hc. apply config_loads in Hc. unfold loads in Hc.
  decompose [and] Hc. clear Hc.
  repeat split; try assumption.
  - intros E. now rewrite E in *.
  - intros v E. now rewrite E in *.
Qed.

(** X24: The loader looks at the nine keys of the schema and at nothing else:
    two environments that agree on them load alike. *)
Theorem config_depends_on_schema_keys (processEnv processEnv' : Js.object) :
  (forall k, In k schema_keys -> Js.get k processEnv = Js.get k processEnv') ->
  config processEnv = config processEnv'.
Proof.
  intros H. unfold config, envVarsSchema, string_required, string_default,
    string_default_null, number_default, string_allow_required.
  rewrite !(H "NODE_ENV"), !(H "PORT"), !(H "DATABASE"), !(H "TEST_DB"),
    !(H "DATABASE_DIALECT"), !(H "DATABASE_PASSWORD"), !(H "DATABASE_USER"),
    !(H "DATABASE_URL"), !(H "HOST") by (cbn; tauto).
  reflexivity.
Qed.

End Schema.

(** *** The properties at a concrete environment *)

(** A reader of unsigned decimal numbers. *)
Definition digit (a : ascii) : option nat :=
  let n := nat_of_ascii a in
  if andb (Nat.leb 48 n) (Nat.leb n 57) then Some (n - 48) else None.

Fixpoint read_digits (acc : nat) (s : string) : option nat :=
  match s with
  | EmptyString => Some acc
  | String a s' =>
      match digit a with
      | Some d => read_digits (10 * acc + d) s'
      | None => None
      end
  end.

Definition read_decimal (s : string) : option Q :=
  match s with
  | EmptyString => None
  | _ =>
      match read_digits 0 s with
      | Some n => Some (Z.of_nat n # 1)%Q
      | None => None
      end
  end.

Definition staging_env : Js.object :=
  [ ("HOST", "0.0.0.0"); ("NODE_ENV", "staging"); ("PORT", "3000");
    ("DATABASE", "events"); ("DATABASE_USER", "postgres");
    ("PATH", "/usr/bin") ].

Definition staging_config : AppConfig :=
  mkConfig "staging" (3000 # 1)%Q "events" "events_test_db" "postgres"
           "postgres" None None "0.0.0.0".

Lemma config_rejects_missing_required_witness :
  exists message,
    config read_decimal [("NODE_ENV", "test"); ("DATABASE", "")] =
    Failure ("Config validation error: " ++ message)%string.
Proof.
  apply (config_rejects_missing_required read_decimal
           [("NODE_ENV", "test"); ("DATABASE", "")] "DATABASE").
  - cbn. tauto.
  - reflexivity.
Defined.

Lemma config_values_witness :
  config read_decimal staging_env = Valid staging_config
  /\ testDbName staging_config = "events_test_db"
  /\ dbDialect staging_config = "postgres".
Proof.
  assert (H : config read_decimal staging_env = Valid staging_config)
    by reflexivity.
  split; [exact H |].
  pose proof (config_values read_decimal staging_env staging_config H) as V.
  split; apply V.
Defined.

Lemma config_depends_on_schema_keys_witness :
  config read_decimal (("EDITOR", "vi") :: staging_env) =
  config read_decimal staging_env.
Proof.
  apply (config_depends_on_schema_keys read_decimal).
  intros k Hk. cbn in Hk.
  repeat (destruct Hk as [<- | Hk]; [reflexivity |]). contradiction.
Defined.

End Config.

(* ================================================================== *)
(** ** The database test suite helper ([describeDbTestSuite]) *)

Module TestSuite.

Import Config.

(** The configuration the helper reads, from [config/config]: the
    environment name and the name of the test database. *)
Record DbConfig := mkDbConfig {
  db_testDbName : string
}.

Record SuiteConfig := mkSuiteConfig {
  suite_env : string;
  suite_db : DbConfig
}.

(** The test in the body of the module: it throws unless both names are
    the expected ones. *)
Definition guard (envConfig : SuiteConfig) : Loaded unit :=
  if negb (String.eqb (suite_env envConfig) "test")
     || negb (String.eqb (db_testDbName (suite_db envConfig)) "bright-events-test")
  then Failure "Not in test environment"
  else Valid tt.

Section Lifecycle.

(** What the migrated tables hold, and what they hold right after the
    migrations have run on a bare database. *)
Variable Data : Type.
Variable migrated : Data.

(** The database: bare ([None]) or migrated, with its data. *)
Definition Db : Type := option Data.

(** [migrate.rollback(config.migrations, true)]: every migration is
    rolled back. *)
Definition rollback (db : Db) : Db := None.

(** [migrate.latest(config.migrations)]: the migrations that have not run
    yet are run. *)
Definition latest (db : Db) : Db :=
  match db with
  | None => Some migrated
  | Some d => Some d
  end.

(** A test does to the database what it does. *)
Definition Test : Type := Db -> Db.

Definition beforeAll (db : Db) : Db := latest (rollback db).
Definition beforeEach (db : Db) : Db := latest (rollback db).
Definition afterEach (db : Db) : Db := rollback db.
Definition afterAll (db : Db) : Db := rollback db.

(** The tests of the group in turn, each between its two hooks; the
    result lists the database each test started on. *)
Fixpoint run_tests (tests : list Test) (db : Db) : list Db * Db :=
  match tests with
  | [] => ([], db)
  | t :: tests' =>
      let started := beforeEach db in
      let (seen, db') := run_tests tests' (afterEach (t started)) in
      (started :: seen, db')
  end.

Definition describeDbTestSuite (tests : list Test) (db : Db) : list Db * Db :=
  let (seen, db') := run_tests tests (beforeAll db) in
  (seen, afterAll db').

(** Loading the module and running a group. *)
Definition run (envConfig : SuiteConfig) (tests : list Test) (db : Db)
  : Loaded (list Db * Db) :=
  _ <- guard envConfig ;;
  Valid (describeDbTestSuite tests db).

Lemma run_tests_fresh (tests : list Test) (db : Db) :
  Forall (eq (Some migrated)) (fst (run_tests tests db))
  /\ length (fst (run_tests tests db)) = length tests.
Proof.
  revert db. induction tests as [| t tests IH]; intros db.
  - split; [constructor | reflexivity].
  - cbn [run_tests].
    destruct (IH (afterEach (t (beforeEach db)))) as [Hall Hlen].
    destruct (run_tests tests (afterEach (t (beforeEach db)))) as [seen db'].
    cbn [fst length] in *. split.
    + constructor; [reflexivity | exact Hall].
    + now rewrite Hlen.
Qed.

(** X25: Outside the test environment nothing is run: the module throws
    "Not in test environment" unless the environment is test and the test
    database is bright-events-test.  When it loads, every test of a group
    starts on a freshly migrated database, whatever the database held
    before the group and whatever the earlier tests did to it, and the
    group leaves the database bare. *)
Theorem describeDbTestSuite_lifecycle
  (envConfig : SuiteConfig) (tests : list Test) (db : Db) :
  match run envConfig tests db with
  | Failure message =>
      message = "Not in test environment"
      /\ (suite_env envConfig <> "test"
          \/ db_testDbName (suite_db envConfig) <> "bright-events-test")
  | Valid (seen, db') =>
      suite_env envConfig = "test"
      /\ db_testDbName (suite_db envConfig) = "bright-events-test"
      /\ Forall (eq (Some migrated)) seen
      /\ length seen = length tests
      /\ db' = None
  end.
Proof.
  unfold run, guard.
  destruct (String.eqb_spec (suite_env envConfig) "test") as [He | He];
    destruct (String.eqb_spec (db_testDbName (suite_db envConfig))
                              "bright-events-test") as [Hd | Hd];
    cbn [negb orb and_then]; try (split; [reflexivity | tauto]).
  unfold describeDbTestSuite.
  pose proof (run_tests_fresh tests (beforeAll db)) as [Hall Hlen].
  destruct (run_tests tests (beforeAll db)) as [seen db'].
  cbn [fst] in *. repeat split; assumption.
Qed.

End Lifecycle.

End TestSuite.
